(** * Schloss stock screener: a shallow embedding of [stock_screener.py]

    The development follows the layout of the Python module: ticker
    validation, the retrying fetcher, the screening predicate, the
    screening loop, and the two result stores.

    Modelling conventions.
    - A fundamentals snapshot ([info], a Python [dict]) is a
      [gmap string pyval]; [info.get(k, d)] is [default d (info !! k)].
    - Finite Python numbers are exact rationals ([Q]).  Python compares
      ints and floats by their mathematical value, so every threshold test
      of the screener is exact in this model; the one arithmetic expression
      of the screener (the distance to the three-year low) is evaluated
      without rounding.  Infinities and NaN are not represented.
    - A raised exception is carried as the text [str(e)] gives for it,
      which is all the program ever inspects or prints of an exception.
    - Strings are ASCII text; [lower] and the character classes act on the
      ASCII letters and digits.
    - The market-data provider, the clock and the file system are explicit
      state; console output is not modelled. *)

From Stdlib Require Import Ascii QArith Qminmax Lqa.
From stdpp Require Import gmap strings list fin_maps pretty sorting.


(** ** Python values and exceptions *)

Inductive pyval :=
| PNone
| PInt (z : Z)
| PFloat (q : Q)
| PStr (s : string).

(** The outcome of a Python call: a value, or a raised [Exception] with its
    message. *)
Inductive result (A : Type) :=
| Ok (a : A)
| Raise (msg : string).
Arguments Ok {A} a.
Arguments Raise {A} msg.

#[global] Instance result_ret : MRet result := fun A a => Ok a.

#[global] Instance result_bind : MBind result := fun A B k r =>
  match r with
  | Ok a => k a
  | Raise msg => Raise msg
  end.

(** [type(v).__name__] *)
Definition type_name (v : pyval) : string :=
  match v with
  | PNone => "NoneType"
  | PInt _ => "int"
  | PFloat _ => "float"
  | PStr _ => "str"
  end.

(** [bool(v)] *)
Definition truthy (v : pyval) : bool :=
  match v with
  | PNone => false
  | PInt z => negb (z =? 0)%Z
  | PFloat q => negb (Qeq_bool q 0)
  | PStr s => negb (String.eqb s "")
  end.

Definition num_of (v : pyval) : option Q :=
  match v with
  | PInt z => Some (inject_Z z)
  | PFloat q => Some q
  | _ => None
  end.

Definition Qlt_bool (x y : Q) : bool := negb (Qle_bool y x).

(** The four order comparisons of Python: numbers compare by value, any
    other pairing of the types modelled here raises [TypeError]. *)
Inductive cmp_op := Lt | Le | Gt | Ge.

Definition cmp_sym (o : cmp_op) : string :=
  match o with Lt => "<" | Le => "<=" | Gt => ">" | Ge => ">=" end.

Definition cmp_num (o : cmp_op) (x y : Q) : bool :=
  match o with
  | Lt => Qlt_bool x y
  | Le => Qle_bool x y
  | Gt => Qlt_bool y x
  | Ge => Qle_bool y x
  end.

Definition py_cmp (o : cmp_op) (a b : pyval) : result bool :=
  match num_of a, num_of b with
  | Some x, Some y => Ok (cmp_num o x y)
  | _, _ =>
      Raise ("'" +:+ cmp_sym o +:+ "' not supported between instances of '"
             +:+ type_name a +:+ "' and '" +:+ type_name b +:+ "'")
  end.

(** The left operand of [v - x] for a float [x]. *)
Definition py_float (v : pyval) : result Q :=
  match num_of v with
  | Some q => Ok q
  | None =>
      Raise ("unsupported operand type(s) for -: '" +:+ type_name v
             +:+ "' and 'float'")
  end.

(** ** Strings *)

Definition lower_ascii (c : ascii) : ascii :=
  let n := nat_of_ascii c in
  if ((65 <=? n) && (n <=? 90))%nat then ascii_of_nat (n + 32) else c.

(** [s.lower()], on ASCII text *)
Fixpoint lower (s : string) : string :=
  match s with
  | EmptyString => EmptyString
  | String c s' => String (lower_ascii c) (lower s')
  end.

(** [s.startswith(p)] *)
Fixpoint startswith (p s : string) : bool :=
  match p, s with
  | EmptyString, _ => true
  | String a p', String b s' => if Ascii.eqb a b then startswith p' s' else false
  | String _ _, EmptyString => false
  end.

(** [sub in s] *)
Fixpoint contains (sub s : string) : bool :=
  startswith sub s ||
  match s with
  | EmptyString => false
  | String _ s' => contains sub s'
  end.

(** [v.lower()]: only [str] has the method. *)
Definition py_lower (v : pyval) : result string :=
  match v with
  | PStr s => Ok (lower s)
  | _ => Raise ("'" +:+ type_name v +:+ "' object has no attribute 'lower'")
  end.

(** ** Price history

    [hist] is the provider's table of daily bars; the screener reads only
    whether it is empty and the [Low] column. *)

Record bar := Bar { Low : Q }.

Definition hist_empty (hist : list bar) : bool :=
  match hist with [] => true | _ => false end.

(** [hist['Low'].min()] of a non-empty table *)
Definition low_min (hist : list bar) : Q :=
  match hist with
  | [] => 0
  | b :: rest => fold_left (fun m b' => Qmin m (Low b')) rest (Low b)
  end.

(** ** The screening predicate *)

Definition info_get (info : gmap string pyval) (k : string) (d : pyval) : pyval :=
  default d (info !! k).

(** [(current_price - three_year_low) / three_year_low > 0.35].  The source
    has no test on the divisor.  Python's true division raises
    [ZeroDivisionError] on a zero divisor, which is what is modelled here;
    were the low a numpy scalar the quotient would be an infinity and the
    stock would be rejected. *)
Definition above_low (price low : Q) : result bool :=
  if Qeq_bool low 0 then Raise "float division by zero"
  else Ok (Qlt_bool (35 # 100) ((price - low) / low)).

Definition stock_qualifies (info : gmap string pyval) (hist : list bar) : result bool :=
  let industry := info_get info "industry" (PStr "") in
  excluded ←
    (if truthy industry then
       lower_industry ← py_lower industry;
       if contains "financial" lower_industry || contains "real estate" lower_industry
       then Ok true
       else if contains "tobacco" lower_industry then Ok true
       else Ok false
     else Ok false);
  if excluded : bool then Ok false else
  let exchange := info_get info "exchange" (PStr "") in
  otc ←
    (if truthy exchange then
       lower_exchange ← py_lower exchange;
       Ok (contains "otc" lower_exchange)
     else Ok false);
  if otc : bool then Ok false else
  small ← py_cmp Lt (info_get info "marketCap" (PInt 0)) (PFloat (50000000 # 1));
  if small : bool then Ok false else
  indebted ← py_cmp Gt (info_get info "debtToEquity" (PInt 100)) (PFloat (4 # 10));
  if indebted : bool then Ok false else
  dear ← py_cmp Ge (info_get info "priceToBook" (PInt 100)) (PFloat (12 # 10));
  if dear : bool then Ok false else
  unprofitable ← py_cmp Le (info_get info "profitMargins" (PInt 0)) (PInt 0);
  if unprofitable : bool then Ok false else
  if hist_empty hist then Ok false else
  let three_year_low := low_min hist in
  match info !! "regularMarketPrice" with
  | None | Some PNone => Ok false
  | Some current_price =>
      penny ← py_cmp Lt current_price (PInt 5);
      if penny : bool then Ok false else
      p ← py_float current_price;
      far ← above_low p three_year_low;
      if far : bool then Ok false else Ok true
  end.

(** A snapshot that passes every rule, used by the examples below. *)
Definition sound_info : gmap string pyval :=
  <["industry" := PStr "Specialty Chemicals"]>
  (<["exchange" := PStr "NYQ"]>
  (<["marketCap" := PInt 900000000]>
  (<["debtToEquity" := PFloat (25 # 100)]>
  (<["priceToBook" := PFloat (9 # 10)]>
  (<["profitMargins" := PFloat (8 # 100)]>
  (<["regularMarketPrice" := PFloat (6 # 1)]> ∅)))))).

Definition sound_hist : list bar := [Bar (7 # 1); Bar (5 # 1); Bar (11 # 2)].

Definition defaulted_fields : list string :=
  ["marketCap"; "debtToEquity"; "priceToBook"; "profitMargins";
   "regularMarketPrice"].

(** The value each rule substitutes for a field the snapshot lacks. *)
Definition documented_default (f : string) : pyval :=
  if String.eqb f "marketCap" then PInt 0
  else if String.eqb f "debtToEquity" then PInt 100
  else if String.eqb f "priceToBook" then PInt 100
  else if String.eqb f "profitMargins" then PInt 0
  else PNone.

(** Boundary snapshots: each differs from [sound_info] in one field. *)
Definition at_debt_limit : gmap string pyval :=
  <["debtToEquity" := PFloat (4 # 10)]> sound_info.

Definition at_cap_limit : gmap string pyval :=
  <["marketCap" := PInt 50000000]> sound_info.

Definition at_book_limit : gmap string pyval :=
  <["priceToBook" := PFloat (12 # 10)]> sound_info.

Definition at_margin_limit : gmap string pyval :=
  <["profitMargins" := PInt 0]> sound_info.

Definition null_cap : gmap string pyval :=
  <["marketCap" := PNone]> sound_info.

Definition negative_low_hist : list bar := [Bar (7 # 1); Bar (-1 # 1)].
Definition zero_low_hist : list bar := [Bar (7 # 1); Bar (0 # 1)].

(** A snapshot as the data model has it: the two text fields hold text and
    the five numeric fields hold numbers, where they are present at all. *)
Definition text_fields : list string := ["industry"; "exchange"].



(** ** Ticker validation *)

Definition is_alnum (c : ascii) : bool :=
  let n := nat_of_ascii c in
  ((48 <=? n) && (n <=? 57) || (65 <=? n) && (n <=? 90)
   || (97 <=? n) && (n <=? 122))%nat.

(** [re.search(r'[A-Za-z0-9]', ticker)] finds a match. *)
Fixpoint is_valid_ticker (ticker : string) : bool :=
  match ticker with
  | EmptyString => false
  | String c rest => is_alnum c || is_valid_ticker rest
  end.

(** ** The fetcher and the screening loop

    What the program does to the outside world while screening is recorded
    as a trace: one [ProviderCall] per execution of the [try] block of
    [fetch_stock_data] (building the [Ticker] and reading its [info] and
    three-year [history]) and one [Sleep] per [time.sleep]. *)

Inductive event :=
| ProviderCall (ticker : string)
| Sleep (seconds : Z).

Definition snapshot : Type := gmap string pyval * list bar.

(** [error_message] names a rate limit or the upstream 401. *)
Definition retryable (error_message : string) : bool :=
  contains "Too Many Requests" error_message
  || contains "401 Client Error" error_message.

Definition exhausted_message (ticker : string) (max_retries : Z) : string :=
  "Failed to fetch data for " +:+ ticker +:+ " after " +:+ pretty max_retries
  +:+ " retries.".

(** What [n] rate-limited attempts leave in the trace, the first wait being
    [delay]. *)
Fixpoint backoff_trace (ticker : string) (n : nat) (delay : Z) : list event :=
  match n with
  | O => []
  | S n' => ProviderCall ticker :: Sleep delay :: backoff_trace ticker n' (delay * 2)
  end.

Definition calls (tr : list event) : list string :=
  omap (fun e => match e with ProviderCall t => Some t | Sleep _ => None end) tr.

Definition sleeps (tr : list event) : list Z :=
  omap (fun e => match e with Sleep d => Some d | ProviderCall _ => None end) tr.

Section Screener.

(** The provider is any state machine: a call for a ticker answers with a
    snapshot or raises, and moves the provider to its next state. *)
Context {W : Type}.
Variable provider : string -> W -> result snapshot * W.

(** The [while retries < max_retries] loop; [remaining] is
    [max_retries - retries]. *)
Fixpoint fetch_loop (ticker : string) (max_retries : Z) (remaining : nat)
    (delay : Z) (w : W) (tr : list event) : result snapshot * W * list event :=
  match remaining with
  | O => (Raise (exhausted_message ticker max_retries), w, tr)
  | S remaining' =>
      let '(r, w') := provider ticker w in
      let tr' := tr ++ [ProviderCall ticker] in
      match r with
      | Ok data => (Ok data, w', tr')
      | Raise error_message =>
          if retryable error_message
          then fetch_loop ticker max_retries remaining' (delay * 2) w'
                 (tr' ++ [Sleep delay])
          else (Raise error_message, w', tr')
      end
  end.

Definition fetch_stock_data (ticker : string) (max_retries : Z)
    (w : W) (tr : list event) : result snapshot * W * list event :=
  fetch_loop ticker max_retries (Z.to_nat max_retries) 1 w tr.

(** The provider state after [n] calls in a row that each raise a
    retryable error; [None] when one of them does anything else. *)
Fixpoint rate_limited (ticker : string) (n : nat) (w : W) : option W :=
  match n with
  | O => Some w
  | S n' =>
      match provider ticker w with
      | (Raise e, w') => if retryable e then rate_limited ticker n' w' else None
      | (Ok _, _) => None
      end
  end.

(** The state of the [for] loop of [build_screener]. *)
Record screening := Screening {
  qualifying : list string;
  all_results : list string;
  world : W;
  trace : list event
}.

(** One iteration of the loop body. *)
Definition screen_ticker (st : screening) (ticker : string) : screening :=
  if negb (is_valid_ticker ticker) then
    Screening (qualifying st)
      (all_results st ++ [ticker +:+ " - Skipped invalid ticker"])
      (world st) (trace st)
  else
    let '(fetched, w, tr) := fetch_stock_data ticker 3 (world st) (trace st) in
    let tr := tr ++ [Sleep 1] in
    match '(info, hist) ← fetched; stock_qualifies info hist with
    | Ok true =>
        Screening (qualifying st ++ [ticker])
          (all_results st ++ [ticker +:+ " - Qualifies"]) w tr
    | Ok false =>
        Screening (qualifying st)
          (all_results st ++ [ticker +:+ " - Does not qualify"]) w tr
    | Raise e =>
        Screening (qualifying st)
          (all_results st ++ [ticker +:+ " - Error: " +:+ e]) w tr
    end.

Definition build_screener (tickers : list string) (w : W) : screening :=
  fold_left screen_ticker tickers (Screening [] [] w []).

End Screener.

Arguments Screening {W}.
Arguments qualifying {W}.
Arguments all_results {W}.
Arguments world {W}.
Arguments trace {W}.

(** The four shapes of an audit line for [ticker]. *)
Definition verdict_for (ticker line : string) : Prop :=
  line = ticker +:+ " - Skipped invalid ticker"
  \/ line = ticker +:+ " - Qualifies"
  \/ line = ticker +:+ " - Does not qualify"
  \/ exists e, line = ticker +:+ " - Error: " +:+ e.

(** The tickers whose audit line says they qualify, in input order. *)
Definition qualified (tickers all_results : list string) : list string :=
  (filter (fun p => p.2 = p.1 +:+ " - Qualifies") (zip tickers all_results)).*1.

Definition occurrences (t : string) (l : list string) : nat :=
  length (filter (fun x => x = t) l).

(** Two providers for the examples: one is rate limited on its first two
    calls, the other answers from a fixed table and keeps no state. *)
Definition flaky_provider (ticker : string) (calls : nat) : result snapshot * nat :=
  if (calls <? 2)%nat then (Raise "429 Client Error: Too Many Requests", S calls)
  else (Ok (sound_info, sound_hist), S calls).

Definition throttled_provider (ticker : string) (w : unit) : result snapshot * unit :=
  (Raise "Too Many Requests. Rate limited. Try after a while.", w).

Definition table_provider (ticker : string) (w : unit) : result snapshot * unit :=
  if String.eqb ticker "BBB" then (Raise "HTTP Error 404: Not Found", w)
  else if String.eqb ticker "CCC" then (Ok (at_book_limit, sound_hist), w)
  else (Ok (sound_info, sound_hist), w).

(** ** Clock and file system *)

(** A reading of [datetime.now()]. *)
Record datetime := DateTime {
  year : nat; month : nat; day : nat;
  hour : nat; minute : nat; second : nat
}.

Definition digit (n : nat) : ascii := ascii_of_nat (48 + n mod 10).

Definition pad2 (n : nat) : string :=
  String (digit (n / 10)) (String (digit n) "").

Definition pad4 (n : nat) : string :=
  String (digit (n / 1000)) (String (digit (n / 100)) (pad2 n)).

(** [now.strftime("%Y%m%d_%H%M%S")], for the four-digit years a clock
    gives. *)
Definition strftime (now : datetime) : string :=
  pad4 (year now) +:+ pad2 (month now) +:+ pad2 (day now) +:+ "_"
  +:+ pad2 (hour now) +:+ pad2 (minute now) +:+ pad2 (second now).

Definition is_digit (c : ascii) : bool :=
  let n := nat_of_ascii c in ((48 <=? n) && (n <=? 57))%nat.

(** The shape [YYYYMMDD_HHMMSS]. *)
Definition is_timestamp (s : string) : bool :=
  match String.list_ascii_of_string s with
  | [y1; y2; y3; y4; m1; m2; d1; d2; u; h1; h2; n1; n2; s1; s2] =>
      forallb is_digit [y1; y2; y3; y4; m1; m2; d1; d2; h1; h2; n1; n2; s1; s2]
      && Ascii.eqb u "_"
  | _ => false
  end.

Definition nl : string := String "010" "".

(** *** The audit log

    Text files are a map from path to content.  A [write] on a file opened
    in append mode puts the text at the end; opening creates the file. *)

Definition append_write (filename text : string) (fs : gmap string string)
    : gmap string string :=
  <[filename := default "" (fs !! filename) +:+ text]> fs.

Definition save_all_results (all_results : list string) (filename : string)
    (now : datetime) (fs : gmap string string) : gmap string string :=
  let timestamp := strftime now in
  let fs := append_write filename ("Run at " +:+ timestamp +:+ nl) fs in
  let fs := fold_left (fun fs line => append_write filename (line +:+ nl) fs)
              all_results fs in
  append_write filename nl fs.

(** The block one run adds to the audit file. *)
Definition run_block (now : datetime) (all_results : list string) : string :=
  "Run at " +:+ strftime now +:+ nl
  +:+ fold_right (fun line rest => line +:+ nl +:+ rest) nl all_results.

(** *** The results folder

    A folder is a map from file name to the file's modification time and
    content. *)

Record file := File { mtime : Z; content : string }.

(** [s.endswith(suffix)] *)
Definition endswith (suffix s : string) : bool :=
  startswith (String.rev suffix) (String.rev s).

Definition is_snapshot_name (f : string) : bool :=
  startswith "results_" f && endswith ".txt" f.

(** [os.listdir]; the order is the file system's. *)
Definition listdir (folder : gmap string file) : list string :=
  (map_to_list folder).*1.

Definition getmtime (folder : gmap string file) (f : string) : Z :=
  default 0%Z (mtime <$> folder !! f).

(** [files.sort(key=...)]: ascending by key, equal keys keep their order. *)
Fixpoint insert_by (key : string -> Z) (x : string) (l : list string) : list string :=
  match l with
  | [] => [x]
  | y :: l' => if (key x <=? key y)%Z then x :: l else y :: insert_by key x l'
  end.

Definition sort_by (key : string -> Z) (l : list string) : list string :=
  foldr (insert_by key) [] l.

(** The order [sort_by] establishes. *)
Definition key_le (key : string -> Z) (a b : string) : Prop :=
  (key a <= key b)%Z.

(** [l[:-n]]: all but the last [n]; [-0] is [0], so [l[:-0]] is empty, and
    a negative [n] counts from the front. *)
Definition all_but_last {A} (n : Z) (l : list A) : list A :=
  if (0 <? n)%Z then take (length l - Z.to_nat n) l
  else take (Z.to_nat (- n)) l.

Definition snapshot_files (folder : gmap string file) : list string :=
  filter (fun f => is_snapshot_name f) (listdir folder).

(** The snapshot files oldest first, and how many of them are beyond the
    newest [max_files]. *)
Definition sorted_snapshots (folder : gmap string file) : list string :=
  sort_by (getmtime folder) (snapshot_files folder).

Definition surplus (folder : gmap string file) (max_files : Z) : nat :=
  (length (sorted_snapshots folder) - Z.to_nat max_files)%nat.

Definition prune_old_results (folder : gmap string file) (max_files : Z)
    : gmap string file :=
  let files := snapshot_files folder in
  if (max_files <? Z.of_nat (length files))%Z then
    let files := sort_by (getmtime folder) files in
    fold_left (fun folder file => delete file folder)
      (all_but_last max_files files) folder
  else folder.

Definition snapshot_text (qualifying : list string) : string :=
  fold_left (fun text stock => text +:+ stock +:+ nl) qualifying
    ("Stocks meeting Walter Schloss criteria:" +:+ nl).

Definition snapshot_name (now : datetime) : string :=
  "results_" +:+ strftime now +:+ ".txt".

(** [written_at] is the modification time the file system gives the new
    file.  A missing folder is created empty first. *)
Definition save_recommended_results (qualifying : list string)
    (now : datetime) (written_at : Z) (folder : option (gmap string file))
    : gmap string file :=
  let folder := default ∅ folder in
  let filename := snapshot_name now in
  let folder := <[filename := File written_at (snapshot_text qualifying)]> folder in
  prune_old_results folder 7.

(** A folder of ten earlier snapshots, written at times 1 to 10. *)
Definition day_stamp (d : nat) : datetime := DateTime 2025 3 d 18 30 0.

Definition ten_snapshots : gmap string file :=
  list_to_map
    ((fun d => ("results_" +:+ strftime (day_stamp d) +:+ ".txt",
                File (Z.of_nat d) "Stocks meeting Walter Schloss criteria:"))
       <$> seq 1 10).

(** ** The acceptance criterion, spelled out *)

Definition names_excluded_industry (s : string) : bool :=
  contains "financial" (lower s) || contains "real estate" (lower s)
  || contains "tobacco" (lower s).

(** The industry is text that names no excluded industry, or is a value
    Python treats as false (missing, [None], [""], [0]). *)
Definition industry_allowed (info : gmap string pyval) : Prop :=
  match info_get info "industry" (PStr "") with
  | PStr s => names_excluded_industry s = false
  | v => truthy v = false
  end.



(** A snapshot of an excluded industry whose numeric fields are all
    unusable. *)
Definition tobacco_nulls : gmap string pyval :=
  <["industry" := PStr "Tobacco Products"]>
  (<["marketCap" := PNone]> (<["debtToEquity" := PStr "n/a"]> ∅)).

(** ** Measures on traces *)

(** Seconds spent in [time.sleep]. *)
Definition total_sleep (tr : list event) : Z := foldr Z.add 0%Z (sleeps tr).

(** The input tickers that pass [is_valid_ticker]. *)
Definition valid_tickers (tickers : list string) : list string :=
  filter (fun t => is_valid_ticker t) tickers.

(** ** Clock readings *)

(** The field ranges of a [datetime]. *)
Definition in_range (now : datetime) : Prop :=
  year now < 10 * 1000 /\ month now <= 12 /\ day now <= 31
  /\ hour now <= 23 /\ minute now <= 59 /\ second now <= 59.

(** ** The ticker list *)

(** [str.isspace] on ASCII: tab to carriage return, the four separators
    28 to 31, and the space. *)
Definition is_space (c : ascii) : bool :=
  let n := nat_of_ascii c in
  ((9 <=? n) && (n <=? 13) || (28 <=? n) && (n <=? 31) || (n =? 32))%nat.

Fixpoint lstrip (s : string) : string :=
  match s with
  | EmptyString => EmptyString
  | String c rest => if is_space c then lstrip rest else s
  end.

Fixpoint rstrip (s : string) : string :=
  match s with
  | EmptyString => EmptyString
  | String c rest =>
      match rstrip rest with
      | EmptyString => if is_space c then EmptyString else String c EmptyString
      | kept => String c kept
      end
  end.

(** [s.strip()] *)
Definition strip (s : string) : string := rstrip (lstrip s).

Definition LF : ascii := "010".
Definition CR : ascii := "013".

(** Reading in text mode turns ["\r\n"] and a lone ["\r"] into ["\n"]. *)
Fixpoint translate_newlines (s : string) : string :=
  match s with
  | EmptyString => EmptyString
  | String c rest =>
      if Ascii.eqb c CR then
        match rest with
        | String c' rest' =>
            if Ascii.eqb c' LF then String LF (translate_newlines rest')
            else String LF (translate_newlines rest)
        | EmptyString => String LF EmptyString
        end
      else String c (translate_newlines rest)
  end.

(** [for line in f]: the lines, each with its ["\n"] if it has one. *)
Fixpoint lines_of (s : string) : list string :=
  match s with
  | EmptyString => []
  | String c rest =>
      if Ascii.eqb c LF then String LF EmptyString :: lines_of rest
      else match lines_of rest with
           | [] => [String c EmptyString]
           | line :: more => String c line :: more
           end
  end.

(** [[line.strip() for line in f if line.strip()]] *)
Definition read_tickers (content : string) : list string :=
  filter (fun t => t <> EmptyString)
    (strip <$> lines_of (translate_newlines content)).

(** What the loop [f.write(ticker + "\n")] writes. *)
Definition ticker_lines (tickers : list string) : string :=
  fold_left (fun text ticker => text +:+ ticker +:+ nl) tickers EmptyString.

(** The three index-membership lists, each a call that may raise. *)
Record indexes := Indexes {
  tickers_sp500 : result (list string);
  tickers_nasdaq : result (list string);
  tickers_dow : result (list string)
}.

(** [sorted(list(set(...)))]: the distinct elements in ascending order.  The
    order in which a set lists its elements does not matter once they are
    sorted. *)
Definition sorted_set (l : list string) : list string :=
  merge_sort String.le (remove_dups l).

Definition generate_ticker_list (filename : string) (idx : indexes)
    (fs : gmap string string) : list string * gmap string string :=
  match (sp500 ← tickers_sp500 idx;
         nasdaq ← tickers_nasdaq idx;
         dow ← tickers_dow idx;
         Ok (sorted_set (sp500 ++ nasdaq ++ dow))) with
  | Ok tickers_list => (tickers_list, <[filename := ticker_lines tickers_list]> fs)
  | Raise e => ([], fs)
  end.

Definition load_tickers (filename : string) (idx : indexes)
    (fs : gmap string string) : list string * gmap string string :=
  match fs !! filename with
  | None => generate_ticker_list filename idx fs
  | Some content => (read_tickers content, fs)
  end.

(** A ticker that survives being written to the list file and read back:
    not empty, no white space at either end, no line break inside. *)
Definition has_linebreak (s : string) : bool :=
  existsb (fun c => Ascii.eqb c LF || Ascii.eqb c CR) (String.list_ascii_of_string s).

Definition clean (t : string) : Prop :=
  t <> EmptyString /\ strip t = t /\ has_linebreak t = false.

Definition small_indexes : indexes :=
  Indexes (Ok ["MMM"; "AAPL"; "BRK.B"]) (Ok ["AAPL"; "ZM"]) (Ok ["MMM"; "AXP"]).

Definition broken_indexes : indexes :=
  Indexes (Ok ["MMM"; "AAPL"]) (Raise "HTTP Error 503") (Ok ["AXP"]).

Definition has_cr (s : string) : bool :=
  existsb (fun c => Ascii.eqb c CR) (String.list_ascii_of_string s).

(** A line as [lines_of] gives it: text without a line break, with or
    without the ["\n"] that ended it. *)
Definition is_line (line : string) : Prop :=
  exists body, has_linebreak body = false
               /\ (line = body \/ line = body +:+ nl).

(** ** The e-mail *)

(** The Base64 alphabet of RFC 4648, as [base64.b64encode] uses it. *)
Definition b64_char (n : nat) : ascii :=
  if n <? 26 then ascii_of_nat (65 + n)
  else if n <? 52 then ascii_of_nat (71 + n)
  else if n <? 62 then ascii_of_nat (n - 4)
  else if n =? 62 then "+"%char
  else "/"%char.

(** [base64.b64encode]: three bytes become four characters of six bits
    each; a last group of one or two bytes is padded with ["="]. *)
Fixpoint b64encode (s : string) : string :=
  match s with
  | EmptyString => EmptyString
  | String a EmptyString =>
      let x := nat_of_ascii a in
      String (b64_char (x / 4)) (String (b64_char (x mod 4 * 16)) "==")
  | String a (String b EmptyString) =>
      let x := nat_of_ascii a in
      let y := nat_of_ascii b in
      String (b64_char (x / 4))
        (String (b64_char (x mod 4 * 16 + y / 16))
           (String (b64_char (y mod 16 * 4)) "="))
  | String a (String b (String c rest)) =>
      let x := nat_of_ascii a in
      let y := nat_of_ascii b in
      let z := nat_of_ascii c in
      String (b64_char (x / 4))
        (String (b64_char (x mod 4 * 16 + y / 16))
           (String (b64_char (y mod 16 * 4 + z / 64))
              (String (b64_char (z mod 64)) (b64encode rest))))
  end.

Definition SOH : ascii := "001".

(** The text that is encoded: [f'user={username}\1auth=Bearer {access_token}\1\1']. *)
Definition auth_string (username access_token : string) : string :=
  "user=" +:+ username +:+ String SOH ("auth=Bearer " +:+ access_token
  +:+ String SOH (String SOH EmptyString)).

Definition generate_oauth2_string (username access_token : string) : string :=
  b64encode (auth_string username access_token).

(** The inverse reading of the alphabet and of the padded groups. *)
Definition b64_value (c : ascii) : option nat :=
  let n := nat_of_ascii c in
  if (65 <=? n) && (n <=? 90) then Some (n - 65)
  else if (97 <=? n) && (n <=? 122) then Some (n - 71)
  else if (48 <=? n) && (n <=? 57) then Some (n + 4)
  else if n =? 43 then Some 62
  else if n =? 47 then Some 63
  else None.

Fixpoint b64decode (s : string) : option string :=
  match s with
  | EmptyString => Some EmptyString
  | String c0 (String c1 (String c2 (String c3 rest))) =>
      v0 ← b64_value c0;
      v1 ← b64_value c1;
      let b0 := ascii_of_nat (v0 * 4 + v1 / 16) in
      if Ascii.eqb c2 "=" then
        if Ascii.eqb c3 "=" && String.eqb rest EmptyString
        then Some (String b0 EmptyString) else None
      else
        v2 ← b64_value c2;
        let b1 := ascii_of_nat (v1 mod 16 * 16 + v2 / 4) in
        if Ascii.eqb c3 "=" then
          if String.eqb rest EmptyString
          then Some (String b0 (String b1 EmptyString)) else None
        else
          v3 ← b64_value c3;
          let b2 := ascii_of_nat (v2 mod 4 * 64 + v3) in
          tail ← b64decode rest;
          Some (String b0 (String b1 (String b2 tail)))
  | _ => None
  end.



Definition is_b64_char (c : ascii) : bool :=
  match b64_value c with
  | Some _ => true
  | None => Ascii.eqb c "="
  end.


(** ** The entry point *)

(** What a run works on: the text files of the working directory, the
    [results] folder (absent before the first run), the provider, and the
    calls and sleeps made so far. *)
Record machine (W : Type) := Machine {
  texts : gmap string string;
  results_folder : option (gmap string file);
  market : W;
  journal : list event
}.
Arguments Machine {W}.
Arguments texts {W}.
Arguments results_folder {W}.
Arguments market {W}.
Arguments journal {W}.

(** The clock as a run reads it: [datetime.now()] in [save_all_results],
    again in [save_recommended_results], and the modification time the new
    snapshot file gets. *)
Record clock := Clock {
  audit_stamp : datetime;
  snapshot_stamp : datetime;
  snapshot_mtime : Z
}.

Section Main.

Context {W : Type}.
Variable provider : string -> W -> result snapshot * W.

(** The [--test-email] path (credentials and SMTP session) is kept
    abstract. *)
Variable send_test_email : machine W -> machine W.

Definition main (argv : list string) (idx : indexes) (clk : clock)
    (m : machine W) : machine W :=
  if decide ("--test-email" ∈ argv) then send_test_email m
  else
    let '(tickers, texts1) := load_tickers "us_stocks.txt" idx (texts m) in
    match tickers with
    | [] => Machine texts1 (results_folder m) (market m) (journal m)
    | _ :: _ =>
        let s := build_screener provider tickers (market m) in
        let texts2 :=
          save_all_results (all_results s) "all_stocks_results.txt"
            (audit_stamp clk) texts1 in
        let folder :=
          save_recommended_results (qualifying s) (snapshot_stamp clk)
            (snapshot_mtime clk) (results_folder m) in
        Machine texts2 (Some folder) (world s) (journal m ++ trace s)
    end.

End Main.

Definition march_clock : clock := Clock (day_stamp 11) (day_stamp 11) 11.

Definition fresh_machine (content : string) : machine unit :=
  Machine {["us_stocks.txt" := content]} None tt [].

(** ** Facts about the screening predicate *)

Example sound_qualifies : stock_qualifies sound_info sound_hist = Ok true.
Proof. vm_compute. reflexivity. Qed.

Ltac split_result H :=
  repeat match type of H with
         | context [match ?x with _ => _ end] =>
             destruct x eqn:?; simpl in H; try discriminate H
         end.

Lemma missing_field_rejects (info : gmap string pyval) (hist : list bar) (f : string) :
  f ∈ defaulted_fields ->
  info !! f = None ->
  stock_qualifies info hist <> Ok true.
Proof.
  intros Hf Hnone Hq.
  unfold stock_qualifies, info_get, mbind, result_bind in Hq.
  unfold defaulted_fields in Hf.
  repeat (apply elem_of_cons in Hf as [-> | Hf]); [.. | by apply elem_of_nil in Hf];
    rewrite Hnone in Hq; simpl in Hq; split_result Hq.
Qed.

Lemma omitted_field_rejects (info : gmap string pyval) (hist : list bar) (f : string) :
  f ∈ defaulted_fields ->
  stock_qualifies info hist = Ok true ->
  stock_qualifies (delete f info) hist = Ok false.
Proof.
  intros Hf Hq.
  unfold stock_qualifies, info_get, mbind, result_bind in *.
  unfold defaulted_fields in Hf.
  repeat (apply elem_of_cons in Hf as [-> | Hf]); [.. | by apply elem_of_nil in Hf];
    rewrite ?lookup_delete_eq, ?lookup_delete_ne by done.
  all: split_result Hq.
  all: simpl; try reflexivity.
Qed.

Lemma missing_field_defaulted (info : gmap string pyval) (hist : list bar) (f : string) :
  f ∈ defaulted_fields ->
  info !! f = None ->
  stock_qualifies (<[f := documented_default f]> info) hist = stock_qualifies info hist.
Proof.
  intros Hf Hnone.
  unfold stock_qualifies, info_get, defaulted_fields in *.
  repeat (apply elem_of_cons in Hf as [-> | Hf]); [.. | by apply elem_of_nil in Hf];
    rewrite ?lookup_insert_eq, ?lookup_insert_ne by done;
    rewrite Hnone; reflexivity.
Qed.

Example book_limit_rejected : stock_qualifies at_book_limit sound_hist = Ok false.
Proof. vm_compute. reflexivity. Qed.

Example margin_limit_rejected : stock_qualifies at_margin_limit sound_hist = Ok false.
Proof. vm_compute. reflexivity. Qed.

Example zero_low_divides_by_zero :
  stock_qualifies sound_info zero_low_hist = Raise "float division by zero".
Proof. vm_compute. reflexivity. Qed.

Example empty_hist_rejected : forall info,
  stock_qualifies info [] <> Ok true.
Proof.
  intros info Hq. unfold stock_qualifies, mbind, result_bind in Hq.
  split_result Hq.
Qed.

(** What a qualifying snapshot is known to satisfy: the bounds the code
    tests, with the boundary on the side the code puts it. *)
Lemma qualifies_thresholds (info : gmap string pyval) (hist : list bar) :
  stock_qualifies info hist = Ok true ->
  exists cap de pb pm price,
    num_of (info_get info "marketCap" (PInt 0)) = Some cap
    /\ num_of (info_get info "debtToEquity" (PInt 100)) = Some de
    /\ num_of (info_get info "priceToBook" (PInt 100)) = Some pb
    /\ num_of (info_get info "profitMargins" (PInt 0)) = Some pm
    /\ (num_of <$> info !! "regularMarketPrice") = Some (Some price)
    /\ (50000000 # 1 <= cap)%Q /\ (de <= 4 # 10)%Q /\ (pb < 12 # 10)%Q
    /\ (0 < pm)%Q /\ (5 <= price)%Q /\ hist <> [].
Proof.
  intros Hq. unfold stock_qualifies, mbind, result_bind in Hq.
  destruct (if truthy _ then _ else _) as [[|]|]; [done| |done].
  destruct (if truthy _ then _ else _) as [[|]|]; [done| |done].
  unfold py_cmp in Hq.
  destruct (num_of (info_get info "marketCap" _)) as [cap|]; [|done].
  simpl in Hq. destruct (Qlt_bool cap _) eqn:Hcap; [done|].
  destruct (num_of (info_get info "debtToEquity" _)) as [de|]; [|done].
  simpl in Hq. destruct (Qlt_bool _ de) eqn:Hde; [done|].
  destruct (num_of (info_get info "priceToBook" _)) as [pb|]; [|done].
  simpl in Hq. destruct (Qle_bool _ pb) eqn:Hpb; [done|].
  destruct (num_of (info_get info "profitMargins" _)) as [pm|]; [|done].
  simpl in Hq. destruct (Qle_bool pm _) eqn:Hpm; [done|].
  destruct hist as [|b hist]; [done|]. simpl in Hq.
  destruct (info !! "regularMarketPrice") as [v|]; [|done].
  assert (exists price, num_of v = Some price /\ Qlt_bool price (inject_Z 5) = false)
    as (price & Hprice & Hpenny).
  { destruct v as [|z|q|t]; simpl in Hq; try done.
    - destruct (Qlt_bool (inject_Z z) _) eqn:E; [done|]. by eexists.
    - destruct (Qlt_bool q _) eqn:E; [done|]. by eexists. }
  exists cap, de, pb, pm, price.
  unfold Qlt_bool in *.
  apply negb_false_iff, Qle_bool_iff in Hcap, Hde, Hpenny.
  apply not_true_iff_false in Hpb, Hpm. rewrite Qle_bool_iff in Hpb, Hpm.
  apply Qnot_le_lt in Hpb, Hpm.
  repeat split; try done. simpl. by rewrite Hprice.
Qed.


(** C9. Removing one of the five defaulted fields from a snapshot gives the
    same result as setting it to its documented default (market
    capitalization 0, debt-to-equity 100, price-to-book 100, net margin 0,
    price [None]); the result is never [True]; and when the full snapshot
    qualified (so every other rule holds and the history is not empty) the
    result is [False]. *)
Theorem missing_field_disqualifies (info : gmap string pyval) (hist : list bar)
    (f : string) :
  f ∈ defaulted_fields ->
  stock_qualifies (delete f info) hist =
    stock_qualifies (<[f := documented_default f]> info) hist
  /\ stock_qualifies (delete f info) hist <> Ok true
  /\ (stock_qualifies info hist = Ok true ->
      stock_qualifies (delete f info) hist = Ok false).
Proof.
  intros Hf. split; [|split].
  - rewrite <- (insert_delete_eq info f (documented_default f)).
    symmetry. apply missing_field_defaulted; [done | apply lookup_delete_eq].
  - apply (missing_field_rejects _ _ f); [done | apply lookup_delete_eq].
  - by apply omitted_field_rejects.
Qed.

Example sound_info_without_debt_ratio :
  stock_qualifies (delete "debtToEquity" sound_info) sound_hist = Ok false.
Proof.
  destruct (missing_field_disqualifies sound_info sound_hist "debtToEquity")
    as (_ & _ & Hrej).
  - unfold defaulted_fields. apply elem_of_cons. right. apply elem_of_cons. by left.
  - apply Hrej. vm_compute. reflexivity.
Defined.

Example null_cap_raises :
  stock_qualifies null_cap sound_hist =
  Raise "'<' not supported between instances of 'NoneType' and 'float'".
Proof. vm_compute. reflexivity. Qed.

(** C2, at its failing input.  A history whose lowest [Low] is negative does
    not disqualify: with a price of 6 and a three-year low of -1 the quotient
    is -7, which is not above 0.35, every other rule passes, and the result
    is [True]. *)
Theorem negative_low_qualifies :
  Qeq (low_min negative_low_hist) (-1 # 1)
  /\ sound_info !! "regularMarketPrice" = Some (PFloat (6 # 1))
  /\ above_low (6 # 1) (-1 # 1) = Ok false
  /\ stock_qualifies sound_info negative_low_hist = Ok true.
Proof. vm_compute. done. Qed.

(** C3, at its failing input.  A debt-to-equity ratio of exactly 0.4, every
    other rule passing, is accepted. *)
Theorem debt_limit_qualifies :
  at_debt_limit !! "debtToEquity" = Some (PFloat (4 # 10))
  /\ stock_qualifies at_debt_limit sound_hist = Ok true.
Proof. vm_compute. done. Qed.

(** C4, at its failing input.  A market capitalization of exactly
    50,000,000, every other rule passing, is accepted. *)
Theorem cap_limit_qualifies :
  at_cap_limit !! "marketCap" = Some (PInt 50000000)
  /\ stock_qualifies at_cap_limit sound_hist = Ok true.
Proof. vm_compute. done. Qed.

(** ** The fetcher *)

(** Substring facts used to read the fetcher's final error message. *)
Lemma startswith_app p s : startswith p (p +:+ s) = true.
Proof.
  induction p as [|c p IH]; simpl; [done|]. by rewrite Ascii.eqb_refl.
Qed.

Lemma contains_unfold sub s :
  contains sub s =
  startswith sub s
  || match s with EmptyString => false | String _ s' => contains sub s' end.
Proof. by destruct s. Qed.

Lemma contains_here sub s : contains sub (sub +:+ s) = true.
Proof. by rewrite contains_unfold, startswith_app. Qed.

Lemma contains_app_r sub a s : contains sub s = true -> contains sub (a +:+ s) = true.
Proof.
  intros H. induction a as [|c a IH]; simpl; [done|].
  rewrite IH. apply orb_true_r.
Qed.

Lemma exhausted_message_names ticker max_retries :
  contains ticker (exhausted_message ticker max_retries) = true /\
  contains (pretty max_retries) (exhausted_message ticker max_retries) = true.
Proof.
  unfold exhausted_message. split.
  - apply (contains_app_r _ "Failed to fetch data for "), contains_here.
  - apply (contains_app_r _ "Failed to fetch data for "),
      (contains_app_r _ ticker), (contains_app_r _ " after "), contains_here.
Qed.

Section FetcherFacts.

Context {W : Type}.
Variable provider : string -> W -> result snapshot * W.

(** The trace is only ever extended, and what is added does not depend on
    what was there. *)
Lemma fetch_loop_frame ticker m n delay w tr :
  fetch_loop provider ticker m n delay w tr =
  let '(r, w', t) := fetch_loop provider ticker m n delay w [] in
  (r, w', tr ++ t).
Proof.
  revert delay w tr. induction n as [|n IH]; intros delay w tr; simpl.
  - by rewrite app_nil_r.
  - destruct (provider ticker w) as [[data|e] w'].
    + reflexivity.
    + destruct (retryable e); [|reflexivity].
      rewrite (IH _ _ ((tr ++ _) ++ _)), (IH _ _ (_ :: _)).
      destruct (fetch_loop _ _ _ _ _ _ []) as [[r w''] t].
      by rewrite <- !app_assoc.
Qed.

Lemma fetch_loop_rate_limited ticker m n k delay w w' tr :
  rate_limited provider ticker n w = Some w' ->
  fetch_loop provider ticker m (n + k) delay w tr =
  fetch_loop provider ticker m k (delay * 2 ^ Z.of_nat n) w'
    (tr ++ backoff_trace ticker n delay).
Proof.
  revert delay w tr. induction n as [|n IH]; intros delay w tr Hn.
  - simpl in *. injection Hn as ->. by rewrite Z.mul_1_r, app_nil_r.
  - simpl in Hn. cbn [Nat.add fetch_loop].
    destruct (provider ticker w) as [[data|e] w1]; [done|].
    destruct (retryable e); [|done].
    rewrite (IH _ _ _ Hn), <- !app_assoc. cbn [app backoff_trace].
    replace (delay * 2 ^ Z.of_nat (S n))%Z with (delay * 2 * 2 ^ Z.of_nat n)%Z;
      [done|].
    rewrite Nat2Z.inj_succ, Z.pow_succ_r by lia. lia.
Qed.

Lemma backoff_trace_calls ticker n delay :
  calls (backoff_trace ticker n delay) = replicate n ticker.
Proof.
  revert delay. induction n as [|n IH]; intros delay; [done|].
  cbn [backoff_trace calls omap list_omap replicate].
  f_equal. apply IH.
Qed.


Lemma fetch_exhausted ticker max_retries w w' tr :
  rate_limited provider ticker (Z.to_nat max_retries) w = Some w' ->
  fetch_stock_data provider ticker max_retries w tr =
  (Raise (exhausted_message ticker max_retries), w',
   tr ++ backoff_trace ticker (Z.to_nat max_retries) 1).
Proof.
  intros Hn. unfold fetch_stock_data.
  rewrite <- (Nat.add_0_r (Z.to_nat max_retries)) at 1.
  by rewrite (fetch_loop_rate_limited _ _ _ _ _ _ _ _ Hn).
Qed.

Lemma fetch_reraises ticker max_retries n w w1 w2 e tr :
  (Z.of_nat n < max_retries)%Z ->
  rate_limited provider ticker n w = Some w1 ->
  provider ticker w1 = (Raise e, w2) ->
  retryable e = false ->
  fetch_stock_data provider ticker max_retries w tr =
  (Raise e, w2, tr ++ backoff_trace ticker n 1 ++ [ProviderCall ticker]).
Proof.
  intros Hlt Hn Hcall He. unfold fetch_stock_data.
  replace (Z.to_nat max_retries) with (n + S (Z.to_nat max_retries - S n))%nat by lia.
  rewrite (fetch_loop_rate_limited _ _ _ _ _ _ _ _ Hn).
  cbn [fetch_loop]. rewrite Hcall, He. by rewrite <- app_assoc.
Qed.

(** C5. Two rate-limit errors followed by a success, with
    [max_retries = 3]: the provider is called exactly three times, the
    program sleeps 1 after the first failure and 2 after the second, and
    the third call's snapshot is returned. *)
Theorem fetch_two_rate_limits_then_success ticker w0 w1 w2 w3 e1 e2 data tr :
  provider ticker w0 = (Raise e1, w1) -> retryable e1 = true ->
  provider ticker w1 = (Raise e2, w2) -> retryable e2 = true ->
  provider ticker w2 = (Ok data, w3) ->
  exists added,
    fetch_stock_data provider ticker 3 w0 tr = (Ok data, w3, tr ++ added)
    /\ added = [ProviderCall ticker; Sleep 1; ProviderCall ticker; Sleep 2;
                ProviderCall ticker]
    /\ calls added = [ticker; ticker; ticker]
    /\ sleeps added = [1; 2]%Z.
Proof.
  intros H0 He1 H1 He2 H2. eexists. split; [|done].
  unfold fetch_stock_data. simpl.
  rewrite H0, He1, H1, He2, H2. by rewrite <- !app_assoc.
Qed.

(** C6. An error of the first provider call that is not a rate-limit or
    401 error is re-raised as it is, after that one call and without any
    sleep ([max_retries] being at least 1).  After [max_retries] rate-limit
    failures in a row the fetcher has made [max_retries] calls and raises an
    error whose message contains the ticker and the number
    [max_retries]. *)
Theorem fetch_reraises_or_gives_up :
  (forall ticker max_retries w w' e tr,
      (0 < max_retries)%Z ->
      provider ticker w = (Raise e, w') ->
      retryable e = false ->
      fetch_stock_data provider ticker max_retries w tr =
      (Raise e, w', tr ++ [ProviderCall ticker]))
  /\ (forall ticker max_retries w w' tr,
        (0 <= max_retries)%Z ->
        rate_limited provider ticker (Z.to_nat max_retries) w = Some w' ->
        exists msg added,
          fetch_stock_data provider ticker max_retries w tr =
          (Raise msg, w', tr ++ added)
          /\ Z.of_nat (length (calls added)) = max_retries
          /\ msg = exhausted_message ticker max_retries
          /\ contains ticker msg = true
          /\ contains (pretty max_retries) msg = true).
Proof.
  split.
  - intros ticker max_retries w w' e tr Hpos Hcall He.
    by rewrite (fetch_reraises ticker max_retries 0 w w w' e tr).
  - intros ticker max_retries w w' tr Hpos Hn.
    exists (exhausted_message ticker max_retries),
      (backoff_trace ticker (Z.to_nat max_retries) 1).
    split; [by apply fetch_exhausted|].
    split; [rewrite backoff_trace_calls, length_replicate; lia|].
    split; [done|]. apply exhausted_message_names.
Qed.

End FetcherFacts.

Example flaky_provider_retried :
  fetch_stock_data flaky_provider "XYZ" 3 0%nat [] =
  (Ok (sound_info, sound_hist), 3%nat,
   [ProviderCall "XYZ"; Sleep 1; ProviderCall "XYZ"; Sleep 2; ProviderCall "XYZ"]).
Proof.
  destruct (fetch_two_rate_limits_then_success flaky_provider "XYZ"
              0%nat 1%nat 2%nat 3%nat _ _ (sound_info, sound_hist) []
              eq_refl eq_refl eq_refl eq_refl eq_refl)
    as (added & Hfetch & -> & _).
  exact Hfetch.
Defined.

Example throttled_provider_gives_up :
  fetch_stock_data table_provider "BBB" 3 tt [] =
    (Raise "HTTP Error 404: Not Found", tt, [ProviderCall "BBB"])
  /\ exists added,
      fetch_stock_data throttled_provider "XYZ" 3 tt [] =
        (Raise "Failed to fetch data for XYZ after 3 retries.", tt, added)
      /\ calls added = ["XYZ"; "XYZ"; "XYZ"].
Proof.
  destruct (fetch_reraises_or_gives_up table_provider) as [Hraise _].
  destruct (fetch_reraises_or_gives_up throttled_provider) as [_ Hgive].
  split.
  - apply (Hraise "BBB" 3%Z tt tt _ []); [lia | reflexivity | reflexivity].
  - destruct (Hgive "XYZ" 3%Z tt tt []) as (msg & added & Hfetch & _ & -> & _);
      [lia | reflexivity |].
    exists added. split; [exact Hfetch|].
    vm_compute in Hfetch. by injection Hfetch as <-.
Defined.

(** ** The screening loop *)

Section ScreenerFacts.

Context {W : Type}.
Variable provider : string -> W -> result snapshot * W.

(** One iteration adds exactly one audit line, for its own ticker, and
    adds the ticker to the qualifying list exactly when that line says
    so. *)
Lemma screen_ticker_step (st : screening) ticker :
  exists line,
    verdict_for ticker line
    /\ all_results (screen_ticker provider st ticker) = all_results st ++ [line]
    /\ qualifying (screen_ticker provider st ticker) =
       qualifying st ++ (if decide (line = ticker +:+ " - Qualifies")
                         then [ticker] else []).
Proof.
  unfold screen_ticker, verdict_for.
  destruct (is_valid_ticker ticker); simpl.
  2:{ eexists; split; [by left|]. split; [done|].
      rewrite decide_False, app_nil_r; [done|].
      intros H%(inj (String.app ticker)); discriminate. }
  destruct (fetch_stock_data _ _ _ _ _) as [[fetched w] tr].
  destruct (_ ≫= _) as [[|]|e]; simpl.
  - eexists; split; [by right; left|]. by rewrite decide_True.
  - eexists; split; [by right; right; left|]. split; [done|].
    rewrite decide_False, app_nil_r; [done|].
    intros H%(inj (String.app ticker)); discriminate.
  - eexists; split; [by right; right; right; eexists|]. split; [done|].
    rewrite decide_False, app_nil_r; [done|].
    intros H%(inj (String.app ticker)); discriminate.
Qed.

(** What the loop adds to a state depends on the state only through the
    provider's state. *)
Lemma screen_ticker_frame (st : screening) ticker :
  let s := screen_ticker provider (Screening [] [] (world st) []) ticker in
  screen_ticker provider st ticker =
  Screening (qualifying st ++ qualifying s) (all_results st ++ all_results s)
    (world s) (trace st ++ trace s).
Proof.
  unfold screen_ticker. destruct (is_valid_ticker ticker); simpl.
  2:{ by rewrite !app_nil_r. }
  unfold fetch_stock_data.
  rewrite (fetch_loop_frame _ _ _ _ _ _ (trace st)).
  destruct (fetch_loop _ _ _ _ _ _ []) as [[fetched w] tr].
  destruct (_ ≫= _) as [[|]|e]; simpl; by rewrite ?app_nil_r, <- ?app_assoc.
Qed.

Lemma screen_fold_frame tickers (st : screening) :
  let s := fold_left (screen_ticker provider) tickers
             (Screening [] [] (world st) []) in
  fold_left (screen_ticker provider) tickers st =
  Screening (qualifying st ++ qualifying s) (all_results st ++ all_results s)
    (world s) (trace st ++ trace s).
Proof.
  revert st. induction tickers as [|t tickers IH]; intros st; simpl.
  { destruct st; simpl. by rewrite !app_nil_r. }
  rewrite IH. rewrite (IH (screen_ticker _ (Screening [] [] _ []) _)).
  rewrite (screen_ticker_frame st). simpl.
  by rewrite <- !app_assoc.
Qed.

Lemma build_screener_app l1 l2 w :
  let s1 := build_screener provider l1 w in
  let s2 := build_screener provider l2 (world s1) in
  build_screener provider (l1 ++ l2) w =
  Screening (qualifying s1 ++ qualifying s2) (all_results s1 ++ all_results s2)
    (world s2) (trace s1 ++ trace s2).
Proof.
  unfold build_screener. rewrite fold_left_app. apply screen_fold_frame.
Qed.

Lemma build_screener_cons t l w :
  let s1 := screen_ticker provider (Screening [] [] w []) t in
  let s2 := build_screener provider l (world s1) in
  build_screener provider (t :: l) w =
  Screening (qualifying s1 ++ qualifying s2) (all_results s1 ++ all_results s2)
    (world s2) (trace s1 ++ trace s2).
Proof. apply (screen_fold_frame l). Qed.

Lemma qualified_cons t line tickers lines :
  qualified (t :: tickers) (line :: lines) =
  (if decide (line = t +:+ " - Qualifies") then [t] else [])
  ++ qualified tickers lines.
Proof.
  unfold qualified. cbn [zip zip_with]. rewrite filter_cons. simpl.
  by destruct (decide (line = t +:+ " - Qualifies")).
Qed.

Lemma qualified_sublist tickers lines : qualified tickers lines `sublist_of` tickers.
Proof.
  revert lines. induction tickers as [|t tickers IH]; intros [|line lines];
    try (unfold qualified; simpl; apply sublist_nil_l).
  rewrite qualified_cons. destruct (decide _); simpl.
  - by apply sublist_skip.
  - by apply sublist_cons.
Qed.

(** The audit list carries one verdict per input ticker, in input order,
    and the qualifying list is read off it. *)
Lemma build_screener_verdicts tickers w :
  let s := build_screener provider tickers w in
  Forall2 verdict_for tickers (all_results s)
  /\ qualifying s = qualified tickers (all_results s).
Proof.
  revert w. induction tickers as [|t tickers IH]; intros w.
  { split; [constructor | done]. }
  cbv zeta. rewrite build_screener_cons. cbv zeta. simpl.
  destruct (screen_ticker_step (Screening [] [] w []) t) as (line & Hv & Ha & Hq).
  simpl in Ha, Hq. rewrite Ha, Hq.
  destruct (IH (world (screen_ticker provider (Screening [] [] w []) t))) as [IHa IHq].
  split.
  - by constructor.
  - cbn [app]. by rewrite qualified_cons, IHq.
Qed.

(** A valid ticker whose fetch raises a non-retryable error gets an error
    line and costs one call and the pause. *)
Lemma screen_ticker_error (st : screening) ticker e w' :
  is_valid_ticker ticker = true ->
  provider ticker (world st) = (Raise e, w') ->
  retryable e = false ->
  screen_ticker provider st ticker =
  Screening (qualifying st) (all_results st ++ [ticker +:+ " - Error: " +:+ e]) w'
    (trace st ++ [ProviderCall ticker; Sleep 1]).
Proof.
  intros Hv Hcall He. unfold screen_ticker. rewrite Hv. simpl.
  rewrite (fetch_reraises provider ticker 3 0 _ _ _ e _ eq_refl eq_refl Hcall He).
  simpl. by rewrite <- !app_assoc.
Qed.

(** A valid ticker whose first fetch succeeds with a snapshot that passes
    is appended to the qualifying list. *)
Lemma screen_ticker_qualifies (st : screening) ticker info hist w' :
  is_valid_ticker ticker = true ->
  provider ticker (world st) = (Ok (info, hist), w') ->
  stock_qualifies info hist = Ok true ->
  screen_ticker provider st ticker =
  Screening (qualifying st ++ [ticker]) (all_results st ++ [ticker +:+ " - Qualifies"])
    w' (trace st ++ [ProviderCall ticker; Sleep 1]).
Proof.
  intros Hv Hcall Hq. unfold screen_ticker, fetch_stock_data. rewrite Hv. simpl.
  rewrite Hcall. simpl. rewrite Hq. by rewrite <- !app_assoc.
Qed.

Lemma failing_symbol_verdicts B tickers w :
  is_valid_ticker B = true ->
  (forall w, exists e w', provider B w = (Raise e, w') /\ retryable e = false) ->
  let s := build_screener provider tickers w in
  (B ∉ qualifying s)
  /\ (forall i, tickers !! i = Some B ->
        exists e, retryable e = false
                  /\ all_results s !! i = Some (B +:+ " - Error: " +:+ e)).
Proof.
  intros Hv HB. revert w. induction tickers as [|t tickers IH]; intros w.
  { split; [apply not_elem_of_nil | by intros i]. }
  cbv zeta. rewrite build_screener_cons. cbv zeta. simpl.
  destruct (IH (world (screen_ticker provider (Screening [] [] w []) t)))
    as [IHq IHa].
  destruct (screen_ticker_step (Screening [] [] w []) t) as (line & _ & Ha & Hq).
  simpl in Ha, Hq. split.
  - rewrite not_elem_of_app. split; [|done].
    destruct (decide (t = B)) as [->|Hne].
    + destruct (HB w) as (e & w' & Hcall & He).
      rewrite (screen_ticker_error (Screening [] [] w []) B e w' Hv Hcall He).
      apply not_elem_of_nil.
    + rewrite Hq. destruct (decide _); [|apply not_elem_of_nil].
      rewrite list_elem_of_singleton. congruence.
  - intros [|i] Hi; simpl in Hi.
    + injection Hi as ->. destruct (HB w) as (e & w' & Hcall & He).
      rewrite (screen_ticker_error (Screening [] [] w []) B e w' Hv Hcall He).
      by exists e.
    + rewrite Ha. simpl. by apply IHa.
Qed.

Lemma qualifying_from_failing B e tickers w :
  is_valid_ticker B = true ->
  retryable e = false ->
  (forall w, provider B w = (Raise e, w)) ->
  B ∉ qualifying (build_screener provider tickers w).
Proof.
  intros Hv He HB. apply failing_symbol_verdicts; [done|].
  intros w'. exists e, w'. by split.
Qed.

Lemma occurrences_app t l1 l2 :
  occurrences t (l1 ++ l2) = (occurrences t l1 + occurrences t l2)%nat.
Proof. unfold occurrences. by rewrite filter_app, length_app. Qed.

Lemma occurrences_always_qualifying t tickers w :
  is_valid_ticker t = true ->
  (forall w, exists info hist w',
      provider t w = (Ok (info, hist), w') /\ stock_qualifies info hist = Ok true) ->
  occurrences t (qualifying (build_screener provider tickers w)) =
  occurrences t tickers.
Proof.
  intros Hv Hok. revert w. induction tickers as [|x tickers IH]; intros w; [done|].
  rewrite build_screener_cons. cbv zeta. simpl.
  rewrite occurrences_app, IH. change (x :: tickers) with ([x] ++ tickers).
  rewrite occurrences_app. f_equal.
  destruct (decide (x = t)) as [->|Hne].
  - destruct (Hok w) as (info & hist & w' & Hcall & Hq).
    by rewrite (screen_ticker_qualifies (Screening [] [] w []) t info hist w'
                  Hv Hcall Hq).
  - destruct (screen_ticker_step (Screening [] [] w []) x) as (line & _ & _ & ->).
    unfold occurrences. simpl. destruct (decide _); simpl.
    + done.
    + by rewrite filter_cons_False.
Qed.

(** C1. Whatever the input list, the audit list holds exactly one verdict
    per input symbol, in input order, and the qualifying list is the
    subsequence of the input that the audit marks as qualifying.  When a
    valid symbol B always fails to fetch with one and the same
    non-retryable error, leaving the provider as it was, the run over
    [l1 ++ B :: l2] ends with the audit list and the qualifying list of the
    run over [l1 ++ l2], except for B's own line, which reads
    "B - Error: <cause>" and sits at B's position; B is not in the
    qualifying list.  Without any assumption on what a failing call does to
    the provider: a valid symbol whose every fetch raises a non-retryable
    error has an error line at each of its positions and never
    qualifies. *)
Theorem build_screener_isolates_failures :
  (forall tickers w,
      let s := build_screener provider tickers w in
      Forall2 verdict_for tickers (all_results s)
      /\ qualifying s = qualified tickers (all_results s)
      /\ qualifying s `sublist_of` tickers)
  /\ (forall B e l1 l2 w,
        is_valid_ticker B = true ->
        retryable e = false ->
        (forall w, provider B w = (Raise e, w)) ->
        let s := build_screener provider (l1 ++ B :: l2) w in
        let s0 := build_screener provider (l1 ++ l2) w in
        all_results s =
          take (length l1) (all_results s0)
          ++ (B +:+ " - Error: " +:+ e) :: drop (length l1) (all_results s0)
        /\ all_results s !! length l1 = Some (B +:+ " - Error: " +:+ e)
        /\ qualifying s = qualifying s0
        /\ B ∉ qualifying s)
  /\ (forall B tickers w,
        is_valid_ticker B = true ->
        (forall w, exists e w',
            provider B w = (Raise e, w') /\ retryable e = false) ->
        let s := build_screener provider tickers w in
        (B ∉ qualifying s)
        /\ (forall i, tickers !! i = Some B ->
              exists e, retryable e = false
                        /\ all_results s !! i = Some (B +:+ " - Error: " +:+ e))).
Proof.
  split; [|split].
  - intros tickers w s. destruct (build_screener_verdicts tickers w) as [Ha Hq].
    split; [done|]. split; [done|].
    subst s. rewrite Hq. apply qualified_sublist.
  - intros B e l1 l2 w Hv He HB s s0. subst s s0.
    rewrite !build_screener_app. cbv zeta. simpl.
    rewrite (build_screener_cons B l2). cbv zeta. simpl.
    set (s1 := build_screener provider l1 w).
    assert (Hlen : length (all_results s1) = length l1).
    { symmetry. eapply Forall2_length, build_screener_verdicts. }
    rewrite (screen_ticker_error (Screening [] [] (world s1) []) B e (world s1)
               Hv (HB _) He). simpl.
    rewrite <- Hlen, take_app_length, drop_app_length.
    split; [done|]. split.
    + by rewrite lookup_app_r, Nat.sub_diag by lia.
    + split; [done|].
      pose proof (qualifying_from_failing B e l1 w Hv He HB) as H1.
      pose proof (qualifying_from_failing B e l2 (world s1) Hv He HB) as H2.
      rewrite not_elem_of_app. by split.
  - intros B tickers w Hv HB. by apply failing_symbol_verdicts.
Qed.

(** C10. Nothing is deduplicated: the audit list is as long as the input
    list whatever symbols repeat, the qualifying list has one entry for
    each input position whose audit line says "Qualifies", and a valid
    symbol whose fetch always succeeds with a passing snapshot occurs in
    the qualifying list as many times as in the input. *)
Theorem build_screener_keeps_duplicates :
  forall tickers w,
    let s := build_screener provider tickers w in
    length (all_results s) = length tickers
    /\ qualifying s = qualified tickers (all_results s)
    /\ forall t,
        is_valid_ticker t = true ->
        (forall w, exists info hist w',
            provider t w = (Ok (info, hist), w')
            /\ stock_qualifies info hist = Ok true) ->
        occurrences t (qualifying s) = occurrences t tickers.
Proof.
  intros tickers w s. destruct (build_screener_verdicts tickers w) as [Ha Hq].
  split; [symmetry; by eapply Forall2_length|]. split; [done|].
  intros t Hv Hok. by apply occurrences_always_qualifying.
Qed.

End ScreenerFacts.

Example table_run :
  let s := build_screener table_provider ["AAA"; "BBB"; "--"; "CCC"; "AAA"] tt in
  qualifying s = ["AAA"; "AAA"]
  /\ all_results s =
     ["AAA - Qualifies"; "BBB - Error: HTTP Error 404: Not Found";
      "-- - Skipped invalid ticker"; "CCC - Does not qualify"; "AAA - Qualifies"]
  /\ trace s =
     [ProviderCall "AAA"; Sleep 1; ProviderCall "BBB"; Sleep 1;
      ProviderCall "CCC"; Sleep 1; ProviderCall "AAA"; Sleep 1].
Proof. vm_compute. done. Qed.

Example table_run_isolates_BBB :
  let s := build_screener table_provider (["AAA"] ++ "BBB" :: ["CCC"]) tt in
  let s0 := build_screener table_provider (["AAA"] ++ ["CCC"]) tt in
  all_results s !! 1%nat = Some "BBB - Error: HTTP Error 404: Not Found"
  /\ qualifying s = qualifying s0
  /\ "BBB" ∉ qualifying s.
Proof.
  destruct (build_screener_isolates_failures table_provider) as (_ & Hiso & _).
  destruct (Hiso "BBB" "HTTP Error 404: Not Found" ["AAA"] ["CCC"] tt)
    as (_ & Hline & Hq & Hnot).
  - reflexivity.
  - reflexivity.
  - intros []. reflexivity.
  - split; [exact Hline|]. split; [exact Hq | exact Hnot].
Defined.

Example table_run_keeps_both_AAA :
  occurrences "AAA"
    (qualifying (build_screener table_provider ["AAA"; "CCC"; "AAA"] tt)) =
  occurrences "AAA" ["AAA"; "CCC"; "AAA"].
Proof.
  destruct (build_screener_keeps_duplicates table_provider ["AAA"; "CCC"; "AAA"] tt)
    as (_ & _ & Hocc).
  apply Hocc.
  - reflexivity.
  - intros w. exists sound_info, sound_hist, w.
    split; [reflexivity | vm_compute; reflexivity].
Defined.

(** ** The audit log *)

Lemma append_assoc (a b c : string) : (a +:+ b) +:+ c = a +:+ (b +:+ c).
Proof.
  induction a as [|x a IH]; [done|].
  change (String x ((a +:+ b) +:+ c) = String x (a +:+ (b +:+ c))).
  by rewrite IH.
Qed.

Lemma append_write_lookup filename text (fs : gmap string string) :
  append_write filename text fs !! filename =
  Some (default "" (fs !! filename) +:+ text).
Proof. apply lookup_insert_eq. Qed.

Lemma append_write_other filename text (fs : gmap string string) g :
  g <> filename -> append_write filename text fs !! g = fs !! g.
Proof. intros Hne. by apply lookup_insert_ne. Qed.

Lemma write_lines_lookup filename lines (fs : gmap string string) c :
  fs !! filename = Some c ->
  append_write filename nl
    (fold_left (fun fs line => append_write filename (line +:+ nl) fs) lines fs)
    !! filename =
  Some (c +:+ fold_right (fun line rest => line +:+ nl +:+ rest) nl lines).
Proof.
  revert fs c. induction lines as [|line lines IH]; intros fs c Hc; simpl.
  - by rewrite append_write_lookup, Hc.
  - erewrite IH; [|rewrite append_write_lookup, Hc; reflexivity].
    simpl. by rewrite !append_assoc.
Qed.

Lemma write_lines_other filename lines (fs : gmap string string) g :
  g <> filename ->
  fold_left (fun fs line => append_write filename (line +:+ nl) fs) lines fs !! g =
  fs !! g.
Proof.
  intros Hne. revert fs. induction lines as [|line lines IH]; intros fs; simpl;
    [done|]. by rewrite IH, append_write_other.
Qed.

Lemma save_all_results_lookup rs filename now (fs : gmap string string) :
  save_all_results rs filename now fs !! filename =
  Some (default "" (fs !! filename) +:+ run_block now rs).
Proof.
  unfold save_all_results, run_block.
  erewrite write_lines_lookup; [|apply append_write_lookup].
  by rewrite !append_assoc.
Qed.

Lemma digit_is_digit n : is_digit (digit n) = true.
Proof.
  unfold is_digit, digit.
  pose proof (Nat.mod_upper_bound n 10 ltac:(lia)) as Hlt.
  rewrite nat_ascii_embedding by lia.
  apply andb_true_intro. split; apply Nat.leb_le; lia.
Qed.

Lemma strftime_shape now : is_timestamp (strftime now) = true.
Proof.
  lazy beta iota delta [strftime pad4 pad2 is_timestamp String.append
                          String.list_ascii_of_string forallb].
  by rewrite !digit_is_digit.
Qed.

(** C8. A run appends to the audit file and changes nothing else: the file
    afterwards is its previous content (empty if it did not exist) followed
    by the header "Run at <YYYYMMDD_HHMMSS>", one line per verdict and an
    empty line; every other file is as before; and a second run puts its own
    block after the block of the first. *)
Theorem save_all_results_appends rs filename now (fs : gmap string string) :
  save_all_results rs filename now fs !! filename =
    Some (default "" (fs !! filename) +:+ run_block now rs)
  /\ run_block now rs =
     "Run at " +:+ strftime now +:+ nl
     +:+ fold_right (fun line rest => line +:+ nl +:+ rest) nl rs
  /\ is_timestamp (strftime now) = true
  /\ (forall g, g <> filename ->
       save_all_results rs filename now fs !! g = fs !! g)
  /\ (forall rs2 now2,
       save_all_results rs2 filename now2 (save_all_results rs filename now fs)
         !! filename =
       Some (default "" (fs !! filename) +:+ run_block now rs
             +:+ run_block now2 rs2)).
Proof.
  split; [apply save_all_results_lookup|].
  split; [reflexivity|].
  split; [apply strftime_shape|].
  split.
  - intros g Hne. unfold save_all_results.
    by rewrite append_write_other, write_lines_other, append_write_other.
  - intros rs2 now2.
    rewrite save_all_results_lookup, save_all_results_lookup. simpl.
    by rewrite append_assoc.
Qed.

Example two_runs_two_blocks :
  save_all_results ["BBB - Does not qualify"] "all_stocks_results.txt" (day_stamp 2)
    (save_all_results ["AAA - Qualifies"] "all_stocks_results.txt" (day_stamp 1) ∅)
    !! "all_stocks_results.txt" =
  Some ("Run at 20250301_183000" +:+ nl +:+ "AAA - Qualifies" +:+ nl +:+ nl
        +:+ "Run at 20250302_183000" +:+ nl +:+ "BBB - Does not qualify" +:+ nl +:+ nl).
Proof.
  destruct (save_all_results_appends ["AAA - Qualifies"] "all_stocks_results.txt"
              (day_stamp 1) ∅) as (_ & _ & _ & _ & Htwo).
  rewrite Htwo. vm_compute. reflexivity.
Defined.

(** ** The results folder *)

Section Sorting.

Variable key : string -> Z.

Lemma insert_by_perm x l : insert_by key x l ≡ₚ x :: l.
Proof.
  induction l as [|y l IH]; simpl; [done|].
  destruct (key x <=? key y)%Z; [done|].
  by rewrite IH, Permutation_swap.
Qed.

Lemma sort_by_perm l : sort_by key l ≡ₚ l.
Proof.
  induction l as [|x l IH]; simpl; [done|].
  by rewrite insert_by_perm, IH.
Qed.

Lemma insert_by_sorted x l :
  StronglySorted (key_le key) l -> StronglySorted (key_le key) (insert_by key x l).
Proof.
  induction l as [|y l IH]; intros Hs; simpl.
  { by repeat constructor. }
  apply StronglySorted_cons in Hs as [Hy Hl].
  destruct (key x <=? key y)%Z eqn:Hxy.
  - apply Z.leb_le in Hxy. constructor; [by constructor|].
    constructor; [done|].
    eapply Forall_impl; [exact Hy|]. unfold key_le. intros z Hz. lia.
  - apply Z.leb_gt in Hxy. constructor; [by apply IH|].
    rewrite insert_by_perm. constructor; [unfold key_le; lia | done].
Qed.

Lemma sort_by_sorted l : StronglySorted (key_le key) (sort_by key l).
Proof.
  induction l as [|x l IH]; simpl; [constructor | by apply insert_by_sorted].
Qed.

End Sorting.

Lemma delete_all_lookup (names : list string) (folder : gmap string file) f :
  fold_left (fun folder file => delete file folder) names folder !! f =
  if decide (f ∈ names) then None else folder !! f.
Proof.
  revert folder. induction names as [|x names IH]; intros folder.
  { case_decide as Hin; [by apply elem_of_nil in Hin | done]. }
  cbn [fold_left]. rewrite IH.
  destruct (decide (f ∈ names)) as [Hin|Hnin].
  - case_decide as Hc; [done|]. destruct Hc. by right.
  - destruct (decide (f = x)) as [->|Hne].
    + case_decide as Hc; [apply lookup_delete_eq|]. destruct Hc. by left.
    + case_decide as Hc; [|by apply lookup_delete_ne].
      apply elem_of_cons in Hc as [?|?]; done.
Qed.

Lemma elem_of_listdir (folder : gmap string file) f :
  f ∈ listdir folder <-> is_Some (folder !! f).
Proof.
  unfold listdir. rewrite list_elem_of_fmap. split.
  - intros ([g x] & -> & Hin). apply elem_of_map_to_list in Hin. by eexists.
  - intros [x Hx]. exists (f, x). split; [done | by apply elem_of_map_to_list].
Qed.

Lemma elem_of_snapshot_files (folder : gmap string file) f :
  f ∈ snapshot_files folder <->
  is_snapshot_name f = true /\ is_Some (folder !! f).
Proof.
  unfold snapshot_files. rewrite list_elem_of_filter, elem_of_listdir.
  by rewrite Is_true_true.
Qed.

Lemma NoDup_snapshot_files (folder : gmap string file) : NoDup (snapshot_files folder).
Proof. apply NoDup_filter, NoDup_fst_map_to_list. Qed.

Section Pruning.

Variable folder : gmap string file.
Variable max_files : Z.
Hypothesis max_files_pos : (0 < max_files)%Z.

Lemma sorted_snapshots_perm : sorted_snapshots folder ≡ₚ snapshot_files folder.
Proof. apply sort_by_perm. Qed.

Lemma sorted_snapshots_length :
length (sorted_snapshots folder) = length (snapshot_files folder).
Proof. by rewrite sorted_snapshots_perm. Qed.

Lemma all_but_last_surplus :
all_but_last max_files (sorted_snapshots folder) =
take (surplus folder max_files) (sorted_snapshots folder).
Proof.
unfold all_but_last, surplus. destruct (0 <? max_files)%Z eqn:E; [done|].
apply Z.ltb_ge in E. lia.
Qed.

(** When there is nothing to delete the folder is returned as it is. *)
Lemma prune_few :
(length (snapshot_files folder) <= Z.to_nat max_files)%nat ->
prune_old_results folder max_files = folder.
Proof.
intros Hle. unfold prune_old_results.
destruct (max_files <? Z.of_nat (length (snapshot_files folder)))%Z eqn:E;
  [|done].
apply Z.ltb_lt in E. lia.
Qed.

Lemma prune_many :
(Z.to_nat max_files < length (snapshot_files folder))%nat ->
prune_old_results folder max_files =
fold_left (fun folder file => delete file folder)
  (take (surplus folder max_files) (sorted_snapshots folder)) folder.
Proof.
intros Hlt. unfold prune_old_results.
destruct (max_files <? Z.of_nat (length (snapshot_files folder)))%Z eqn:E.
- by rewrite <- all_but_last_surplus.
- apply Z.ltb_ge in E. lia.
Qed.

(** Pruning only removes snapshot files; what it keeps is unchanged. *)
Lemma prune_lookup f :
prune_old_results folder max_files !! f = folder !! f
\/ (prune_old_results folder max_files !! f = None
    /\ f ∈ snapshot_files folder).
Proof.
destruct (decide (length (snapshot_files folder) <= Z.to_nat max_files)%nat)
  as [Hle|Hgt].
{ left. by rewrite prune_few. }
rewrite prune_many by lia. rewrite delete_all_lookup.
case_decide as Hin; [right|by left].
split; [done|]. rewrite <- sorted_snapshots_perm.
rewrite <- (take_drop (surplus folder max_files) (sorted_snapshots folder)).
apply elem_of_app. by left.
Qed.

(** After pruning, the snapshot files are the last [max_files] of the
  sorted list. *)
Lemma prune_many_files :
(Z.to_nat max_files < length (snapshot_files folder))%nat ->
snapshot_files (prune_old_results folder max_files)
≡ₚ drop (surplus folder max_files) (sorted_snapshots folder).
Proof.
intros Hlt. rewrite prune_many by done.
set (k := surplus folder max_files). set (l := sorted_snapshots folder).
assert (Hnd : NoDup l).
{ unfold l. rewrite sorted_snapshots_perm. apply NoDup_snapshot_files. }
assert (Hmem : forall f, f ∈ l <-> f ∈ snapshot_files folder).
{ intros f. unfold l. by rewrite sorted_snapshots_perm. }
rewrite <- (take_drop k l) in Hnd.
apply NoDup_app in Hnd as (_ & Hdisj & Hnd).
apply NoDup_Permutation; [apply NoDup_snapshot_files | done |].
intros f. rewrite elem_of_snapshot_files, delete_all_lookup.
case_decide as Hin.
- split; [intros [_ [x Hx]]; done|]. intros Hd. by destruct (Hdisj f Hin).
- rewrite <- elem_of_snapshot_files, <- Hmem.
  rewrite <- (take_drop k l) at 1. rewrite elem_of_app.
  split; [intros [Ht|Hd]; [by destruct Hin | done] | by right].
Qed.

Lemma prune_count :
length (snapshot_files (prune_old_results folder max_files)) =
Nat.min (length (snapshot_files folder)) (Z.to_nat max_files).
Proof.
destruct (decide (length (snapshot_files folder) <= Z.to_nat max_files)%nat)
  as [Hle|Hgt].
{ rewrite prune_few by done. lia. }
rewrite prune_many_files by lia. rewrite length_drop. unfold surplus.
rewrite sorted_snapshots_length. lia.
Qed.

(** Every deleted snapshot is at most as recent as every kept one. *)
Lemma prune_deletes_oldest f g :
f ∈ snapshot_files folder ->
f ∉ snapshot_files (prune_old_results folder max_files) ->
g ∈ snapshot_files (prune_old_results folder max_files) ->
(getmtime folder f <= getmtime folder g)%Z.
Proof.
intros Hf Hgone Hkept.
destruct (decide (length (snapshot_files folder) <= Z.to_nat max_files)%nat)
  as [Hle|Hgt].
{ rewrite prune_few in Hgone by done. done. }
rewrite prune_many_files in Hgone, Hkept by lia.
rewrite <- sorted_snapshots_perm in Hf.
pose proof (sort_by_sorted (getmtime folder) (snapshot_files folder)) as Hs.
fold (sorted_snapshots folder) in Hs.
rewrite <- (take_drop (surplus folder max_files) (sorted_snapshots folder)) in Hf, Hs.
apply elem_of_app in Hf as [Hf|Hf]; [|done].
exact (StronglySorted_app_1_elem_of _ _ _ _ _ Hs Hf Hkept).
Qed.

End Pruning.

Lemma prune_idempotent (folder : gmap string file) max_files :
  (0 < max_files)%Z ->
  prune_old_results (prune_old_results folder max_files) max_files =
  prune_old_results folder max_files.
Proof.
  intros Hpos. apply prune_few; [done|]. rewrite prune_count by done. lia.
Qed.

(** The name of a new snapshot matches the pattern pruning looks for. *)
Lemma rev_app_append a b acc :
  String.rev_app (a +:+ b) acc = String.rev_app b (String.rev_app a acc).
Proof.
  revert acc. induction a as [|c a IH]; intros acc; [done|].
  change (String.rev_app (a +:+ b) (String c acc) =
          String.rev_app b (String.rev_app a (String c acc))).
  apply IH.
Qed.

Lemma rev_app_acc s acc : String.rev_app s acc = String.rev_app s "" +:+ acc.
Proof.
  revert acc. induction s as [|c s IH]; intros acc; [done|].
  change (String.rev_app s (String c acc) = String.rev_app s (String c "") +:+ acc).
  rewrite (IH (String c acc)), (IH (String c "")). by rewrite append_assoc.
Qed.

Lemma endswith_app suffix s : endswith suffix (s +:+ suffix) = true.
Proof.
  unfold endswith, String.rev.
  rewrite rev_app_append, (rev_app_acc suffix (String.rev_app s "")).
  apply startswith_app.
Qed.

Lemma is_snapshot_name_ok now : is_snapshot_name (snapshot_name now) = true.
Proof.
  unfold is_snapshot_name, snapshot_name. rewrite startswith_app.
  rewrite <- append_assoc. by rewrite endswith_app.
Qed.

Lemma snapshot_files_insert (folder : gmap string file) f x :
  length (snapshot_files folder) <= length (snapshot_files (<[f := x]> folder)).
Proof.
  apply submseteq_length, NoDup_submseteq; [apply NoDup_snapshot_files|].
  intros g. rewrite !elem_of_snapshot_files. intros [Hs Hg]. split; [done|].
  destruct (decide (f = g)) as [->|Hne].
  - rewrite lookup_insert_eq. by eexists.
  - by rewrite lookup_insert_ne.
Qed.

(** C7. Saving writes the new snapshot file and prunes: afterwards the
    folder holds the smaller of 7 and the number of snapshot files there
    were once the new one was written, hence at most 7, and exactly 7 when
    there were 7 or more before; every snapshot that was deleted is at most
    as recent, by modification time, as every snapshot that was kept; files
    that were kept are unchanged and only snapshot files are deleted; and
    pruning a folder of 7 or fewer snapshots returns it unchanged, so pruning
    twice is pruning once. *)
Theorem save_recommended_results_keeps_seven
    (qualifying : list string) (now : datetime) (written_at : Z)
    (folder : option (gmap string file)) :
  let written :=
    <[snapshot_name now := File written_at (snapshot_text qualifying)]>
      (default ∅ folder) in
  let kept := save_recommended_results qualifying now written_at folder in
  kept = prune_old_results written 7
  /\ snapshot_name now ∈ snapshot_files written
  /\ length (snapshot_files kept) = Nat.min (length (snapshot_files written)) 7
  /\ length (snapshot_files kept) <= 7
  /\ (7 <= length (snapshot_files (default ∅ folder)) ->
      length (snapshot_files kept) = 7)
  /\ (forall f g,
        f ∈ snapshot_files written -> f ∉ snapshot_files kept ->
        g ∈ snapshot_files kept ->
        (getmtime written f <= getmtime written g)%Z)
  /\ (forall f,
        kept !! f = written !! f
        \/ (kept !! f = None /\ f ∈ snapshot_files written))
  /\ (forall d : gmap string file,
        length (snapshot_files d) <= 7 -> prune_old_results d 7 = d)
  /\ (forall d : gmap string file,
        prune_old_results (prune_old_results d 7) 7 = prune_old_results d 7).
Proof.
  intros written kept.
  assert (Hcount : length (snapshot_files kept) =
                   Nat.min (length (snapshot_files written)) 7).
  { apply (prune_count written 7). lia. }
  split; [done|]. split.
  { apply elem_of_snapshot_files. split; [apply is_snapshot_name_ok|].
    unfold written. rewrite lookup_insert_eq. by eexists. }
  split; [done|]. split; [lia|]. split.
  { intros Hseven. rewrite Hcount.
    pose proof (snapshot_files_insert (default ∅ folder) (snapshot_name now)
                  (File written_at (snapshot_text qualifying))) as Hle.
    fold written in Hle. lia. }
  split; [apply (prune_deletes_oldest written 7); lia|].
  split; [apply (prune_lookup written 7); lia|].
  split.
  - intros d Hd. apply prune_few; [lia|]. exact Hd.
  - intros d. apply prune_idempotent. lia.
Qed.

Example eleventh_snapshot :
  let kept := save_recommended_results ["AAA"] (day_stamp 11) 11
                (Some ten_snapshots) in
  length (snapshot_files ten_snapshots) = 10
  /\ length (snapshot_files kept) = 7
  /\ sort_by (getmtime kept) (snapshot_files kept) =
     (fun d => snapshot_name (day_stamp d)) <$> seq 5 7.
Proof. vm_compute. done. Qed.

Example eleventh_snapshot_count :
  length (snapshot_files
            (save_recommended_results ["AAA"] (day_stamp 11) 11
               (Some ten_snapshots))) = 7.
Proof.
  destruct (save_recommended_results_keeps_seven ["AAA"] (day_stamp 11) 11
              (Some ten_snapshots)) as (_ & _ & _ & _ & Hseven & _).
  apply Hseven. vm_compute. lia.
Defined.

(** ** More on the screening predicate *)

Lemma Qle_bool_ext (a b c d : Q) :
  (a <= b <-> c <= d)%Q -> Qle_bool a b = Qle_bool c d.
Proof.
  intros H. apply eq_true_iff_eq. by rewrite !Qle_bool_iff.
Qed.

Lemma Qdiv_le_pos (x c low : Q) : (0 < low -> (x / low <= c <-> x <= c * low))%Q.
Proof.
  intros Hpos. split.
  - intros H. apply (Qmult_le_r _ _ low) in H; [|done].
    rewrite (Qmult_comm (x / low)), Qmult_div_r in H; [done|]. lra.
  - intros H. by apply Qle_shift_div_r.
Qed.

Lemma Qdiv_le_neg (x c low : Q) : (low < 0 -> (x / low <= c <-> c * low <= x))%Q.
Proof.
  intros Hneg.
  assert (Hdiv : (x / low == (- x) / (- low))%Q) by (field; lra).
  rewrite Hdiv, Qdiv_le_pos by lra. split; intros H; lra.
Qed.



(** X2. For a negative three-year low the comparison is reversed: the rule
    turns down exactly the prices below 1.35 times the low, so no price of
    zero or more is ever turned down. *)
Theorem above_low_negative (price low : Q) :
  (low < 0)%Q ->
  above_low price low = Ok (negb (Qle_bool ((135 # 100) * low) price))
  /\ ((0 <= price)%Q -> above_low price low = Ok false).
Proof.
  intros Hneg.
  assert (Heq : above_low price low =
                Ok (negb (Qle_bool ((135 # 100) * low) price))).
  { unfold above_low, Qlt_bool.
    destruct (Qeq_bool low 0) eqn:E; [apply Qeq_bool_iff in E; lra|].
    do 2 f_equal. apply Qle_bool_ext.
    rewrite Qdiv_le_neg by done. split; intros H; lra. }
  split; [done|]. intros Hprice. rewrite Heq.
  assert (Qle_bool ((135 # 100) * low) price = true) as ->; [|done].
  apply Qle_bool_iff. lra.
Qed.

Example above_low_negative_accepts :
  above_low (6 # 1) (-1 # 1) = Ok false.
Proof.
  destruct (above_low_negative (6 # 1) (-1 # 1)) as [_ H]; [reflexivity|].
  apply H. discriminate.
Defined.




(** X4. An excluded industry decides the verdict before any other field is
    read: whatever else the snapshot holds, usable or not, the result is
    [False].  The match ignores letter case. *)
Theorem excluded_industry_rejected (info : gmap string pyval) (hist : list bar)
    (s : string) :
  info !! "industry" = Some (PStr s) ->
  names_excluded_industry s = true ->
  stock_qualifies info hist = Ok false.
Proof.
  intros Hi Hex. unfold stock_qualifies, info_get, mbind, result_bind.
  rewrite Hi. cbn [default from_option id truthy py_lower].
  unfold names_excluded_industry in Hex.
  destruct (negb (s =? "")%string) eqn:E.
  - cbn beta iota. apply orb_true_iff in Hex as [->| ->]; [done|].
    by destruct (_ || _).
  - apply negb_false_iff, String.eqb_eq in E. by subst.
Qed.

Example tobacco_nulls_rejected : stock_qualifies tobacco_nulls [] = Ok false.
Proof.
  apply (excluded_industry_rejected tobacco_nulls [] "Tobacco Products");
    reflexivity.
Defined.

(** X5. With the industry not excluded, an exchange whose name contains
    "otc" in any letter case gives [False], again before any numeric field
    is read. *)
Theorem otc_exchange_rejected (info : gmap string pyval) (hist : list bar)
    (e : string) :
  industry_allowed info ->
  info !! "exchange" = Some (PStr e) ->
  contains "otc" (lower e) = true ->
  stock_qualifies info hist = Ok false.
Proof.
  intros Hind He Hotc. unfold stock_qualifies, mbind, result_bind.
  unfold industry_allowed, names_excluded_industry in Hind.
  assert ((if truthy (info_get info "industry" (PStr ""))
           then match py_lower (info_get info "industry" (PStr "")) with
                | Ok lower_industry =>
                    if contains "financial" lower_industry
                       || contains "real estate" lower_industry
                    then Ok true
                    else if contains "tobacco" lower_industry then Ok true
                         else Ok false
                | Raise msg => Raise msg
                end
           else Ok false) = Ok false) as ->.
  { destruct (info_get info "industry" _) as [|z|q|s]; simpl in *;
      try done; try (by rewrite Hind).
    destruct (negb (s =? "")%string); [|done].
    apply orb_false_iff in Hind as [Hind ->]. by rewrite Hind. }
  unfold info_get at 1 2. rewrite He. cbn [default from_option id truthy py_lower].
  destruct (negb (e =? "")%string) eqn:E.
  - cbn beta iota. by rewrite Hotc.
  - apply negb_false_iff, String.eqb_eq in E. by subst.
Qed.

Example pink_sheet_rejected :
  stock_qualifies (<["exchange" := PStr "OTC Markets"]> null_cap) sound_hist
  = Ok false.
Proof.
  apply (otc_exchange_rejected _ _ "OTC Markets"); reflexivity.
Defined.



(** ** More on the fetcher and the screening loop *)

Lemma calls_app tr1 tr2 : calls (tr1 ++ tr2) = calls tr1 ++ calls tr2.
Proof. apply omap_app. Qed.

Lemma sleeps_app tr1 tr2 : sleeps (tr1 ++ tr2) = sleeps tr1 ++ sleeps tr2.
Proof. apply omap_app. Qed.

Lemma total_sleep_app tr1 tr2 :
  total_sleep (tr1 ++ tr2) = (total_sleep tr1 + total_sleep tr2)%Z.
Proof.
  unfold total_sleep. rewrite sleeps_app.
  induction (sleeps tr1) as [|d l IH]; simpl; lia.
Qed.

Lemma backoff_trace_total ticker n delay :
  total_sleep (backoff_trace ticker n delay) = (delay * (2 ^ Z.of_nat n - 1))%Z.
Proof.
  revert delay. induction n as [|n IH]; intros delay.
  - change (0 = delay * (2 ^ 0 - 1))%Z. lia.
  - change (total_sleep (backoff_trace ticker (S n) delay))
      with (delay + total_sleep (backoff_trace ticker n (delay * 2)))%Z.
    rewrite IH, Nat2Z.inj_succ, Z.pow_succ_r by lia. lia.
Qed.

Section FetcherBounds.

Context {W : Type}.
Variable provider : string -> W -> result snapshot * W.

(** Every run of the retry loop is some number of rate-limited attempts,
    followed by nothing when the attempts are used up and by one more call
    otherwise. *)
Lemma fetch_loop_shape ticker m n delay w tr :
  exists k last,
    (fetch_loop provider ticker m n delay w tr).2 =
      tr ++ backoff_trace ticker k delay ++ last
    /\ ((k = n /\ last = []) \/ (k < n /\ last = [ProviderCall ticker])).
Proof.
  revert delay w tr. induction n as [|n IH]; intros delay w tr.
  - exists 0, []. simpl. split; [by rewrite app_nil_r | by left].
  - cbn [fetch_loop]. destruct (provider ticker w) as [[data|e] w'].
    + exists 0, [ProviderCall ticker]. simpl. split; [done|]. right. split; [lia|done].
    + destruct (retryable e).
      * destruct (IH (delay * 2)%Z w' ((tr ++ [ProviderCall ticker]) ++ [Sleep delay]))
          as (k & last & Htr & Hk).
        exists (S k), last. rewrite Htr. split.
        { rewrite <- !app_assoc. done. }
        destruct Hk as [[-> ->]|[Hlt ->]]; [by left | right; split; [lia|done]].
      * exists 0, [ProviderCall ticker]. simpl. split; [done|].
        right. split; [lia|done].
Qed.

(** X6. Whatever the provider does, [fetch_stock_data] calls it at most
    [max_retries] times, and only for the ticker it was asked about. *)
Theorem fetch_attempts_bounded ticker max_retries w tr :
  exists added,
    (fetch_stock_data provider ticker max_retries w tr).2 = tr ++ added
    /\ length (calls added) <= Z.to_nat max_retries
    /\ calls added = replicate (length (calls added)) ticker.
Proof.
  unfold fetch_stock_data.
  destruct (fetch_loop_shape ticker max_retries (Z.to_nat max_retries) 1 w tr)
    as (k & last & Htr & Hk).
  exists (backoff_trace ticker k 1 ++ last). split; [done|].
  rewrite calls_app, backoff_trace_calls.
  destruct Hk as [[-> ->]|[Hlt ->]]; simpl.
  - rewrite !app_nil_r, length_replicate. done.
  - rewrite length_app, length_replicate. simpl. split; [lia|].
    rewrite Nat.add_1_r. by rewrite replicate_S_end.
Qed.


End FetcherBounds.

Section ScreenerBounds.

Context {W : Type}.
Variable provider : string -> W -> result snapshot * W.

Lemma screen_invalid (st : screening) ticker :
  is_valid_ticker ticker = false ->
  screen_ticker provider st ticker =
  Screening (qualifying st)
    (all_results st ++ [ticker +:+ " - Skipped invalid ticker"])
    (world st) (trace st).
Proof. intros Hv. unfold screen_ticker. by rewrite Hv. Qed.

Lemma fetch_loop_first_call ticker m n delay w tr :
  exists rest,
    (fetch_loop provider ticker m (S n) delay w tr).2 =
    tr ++ ProviderCall ticker :: rest.
Proof.
  cbn [fetch_loop]. destruct (provider ticker w) as [[data|e] w1].
  - by exists [].
  - destruct (retryable e); [|by exists []].
    rewrite fetch_loop_frame.
    destruct (fetch_loop _ _ _ _ _ _ []) as [[r w2] t].
    exists (Sleep delay :: t). simpl. by rewrite <- !app_assoc.
Qed.

(** What one valid ticker costs. *)
Lemma screen_valid_trace w ticker :
  is_valid_ticker ticker = true ->
  let s := screen_ticker provider (Screening [] [] w []) ticker in
  exists n,
    calls (trace s) = replicate n ticker /\ 1 <= n <= 3
    /\ (1 <= total_sleep (trace s) <= 8)%Z
    /\ (qualifying s = [] \/ qualifying s = [ticker]).
Proof.
  intros Hv. unfold screen_ticker. rewrite Hv. cbn [negb qualifying all_results world trace].
  destruct (fetch_loop_shape provider ticker 3 3 1 w []) as (k & last & Htr & Hk).
  change (fetch_loop provider ticker 3 3 1 w [])
    with (fetch_stock_data provider ticker 3 w []) in Htr.
  destruct (fetch_stock_data provider ticker 3 w []) as [[fetched w'] tr] eqn:E.
  simpl in Htr. subst tr. set (added := backoff_trace ticker k 1 ++ last).
  assert (Hc : calls added = replicate (length (calls added)) ticker
               /\ length (calls added) <= 3).
  { unfold added. rewrite calls_app, backoff_trace_calls.
    destruct Hk as [[-> ->]|[Hlt ->]].
    - change (calls []) with (@nil string).
      rewrite app_nil_r, length_replicate. split; [done|lia].
    - change (calls [ProviderCall ticker]) with [ticker].
      rewrite length_app, length_replicate. cbn [length]. split; [|lia].
      rewrite Nat.add_1_r. by rewrite replicate_S_end. }
  destruct Hc as [Hc Hn].
  assert (Ht : total_sleep added = (2 ^ Z.of_nat k - 1)%Z /\ k <= 3).
  { unfold added. rewrite total_sleep_app, backoff_trace_total.
    destruct Hk as [[-> ->]|[Hlt ->]]; change (total_sleep _) with 0%Z;
      split; lia. }
  destruct Ht as [Ht Hk3].
  assert (Hb : (total_sleep added <= 7)%Z).
  { rewrite Ht.
    assert (2 ^ Z.of_nat k <= 2 ^ 3)%Z by (apply Z.pow_le_mono_r; lia). lia. }
  assert (Hpos : 1 <= length (calls added)).
  { destruct (fetch_loop_first_call ticker 3 2 1 w []) as [rest Hr].
    change (fetch_loop provider ticker 3 3 1 w [])
      with (fetch_stock_data provider ticker 3 w []) in Hr.
    rewrite E in Hr. simpl in Hr. fold added in Hr. rewrite Hr. simpl. lia. }
  assert (H0 : (0 <= 2 ^ Z.of_nat k - 1)%Z).
  { assert (0 < 2 ^ Z.of_nat k)%Z by (apply Z.pow_pos_nonneg; lia). lia. }
  exists (length (calls added)).
  assert (Hcalls : forall q a,
    calls (trace (Screening (W:=W) q a w' (added ++ [Sleep 1]))) =
      replicate (length (calls added)) ticker
    /\ (1 <= total_sleep (trace (Screening (W:=W) q a w' (added ++ [Sleep 1]))) <= 8)%Z).
  { intros q a. cbn [trace]. rewrite calls_app, total_sleep_app.
    change (calls [Sleep 1]) with (@nil string).
    change (total_sleep [Sleep 1]) with 1%Z.
    rewrite app_nil_r. split; [done|]. lia. }
  destruct (_ ≫= _) as [[|]|e]; cbn [qualifying];
    (destruct (Hcalls [] []) as [H1 H2]);
    (split; [exact H1|]; split; [lia|]; split; [exact H2|]); auto.
Qed.

Lemma valid_tickers_cons t tickers :
  valid_tickers (t :: tickers) =
  if is_valid_ticker t then t :: valid_tickers tickers else valid_tickers tickers.
Proof.
  unfold valid_tickers. rewrite filter_cons.
  destruct (is_valid_ticker t); by case_decide.
Qed.

Lemma calls_are_valid tickers w :
  Forall (fun t => t ∈ valid_tickers tickers)
    (calls (trace (build_screener provider tickers w))).
Proof.
  revert w. induction tickers as [|t tickers IH]; intros w; [constructor|].
  rewrite build_screener_cons. cbv zeta. cbn [trace].
  rewrite valid_tickers_cons, calls_app.
  specialize (IH (world (screen_ticker provider (Screening [] [] w []) t))).
  destruct (is_valid_ticker t) eqn:Hv.
  - destruct (screen_valid_trace w t Hv) as (n & Hc & _).
    apply Forall_app. split.
    + rewrite Hc. apply Forall_forall. intros x Hx.
      apply elem_of_replicate in Hx as [-> _]. by left.
    + eapply Forall_impl; [exact IH|]. intros x Hx. by right.
  - rewrite (screen_invalid _ t Hv) in IH |- *. cbn [trace world] in IH |- *.
    exact IH.
Qed.

(** X8. The provider is called for the valid input tickers only, in input
    order, between one and three times each; tickers without a letter or
    digit cause no call. *)
Theorem build_screener_calls tickers w :
  exists ns,
    length ns = length (valid_tickers tickers)
    /\ Forall (fun n => 1 <= n <= 3) ns
    /\ calls (trace (build_screener provider tickers w)) =
       concat (zip_with replicate ns (valid_tickers tickers)).
Proof.
  revert w. induction tickers as [|t tickers IH]; intros w.
  { by exists []. }
  rewrite build_screener_cons. cbv zeta. cbn [trace].
  rewrite valid_tickers_cons, calls_app.
  destruct (is_valid_ticker t) eqn:Hv.
  - destruct (screen_valid_trace w t Hv) as (n & Hc & Hn & _).
    destruct (IH (world (screen_ticker provider (Screening [] [] w []) t)))
      as (ns & Hlen & Hall & Hcalls).
    exists (n :: ns). split; [simpl; by rewrite Hlen|].
    split; [by constructor|]. simpl. by rewrite Hc, Hcalls.
  - rewrite (screen_invalid _ t Hv). cbn [trace world calls omap list_omap app].
    apply IH.
Qed.

(** X9. A run over a list with [v] valid tickers makes between [v] and
    [3 * v] provider calls and sleeps between [v] and [8 * v] seconds. *)
Theorem build_screener_cost tickers w :
  let s := build_screener provider tickers w in
  let v := length (valid_tickers tickers) in
  v <= length (calls (trace s)) <= 3 * v
  /\ (Z.of_nat v <= total_sleep (trace s) <= 8 * Z.of_nat v)%Z.
Proof.
  revert w. induction tickers as [|t tickers IH]; intros w.
  { cbv zeta. change (total_sleep _) with 0%Z. simpl. lia. }
  cbv zeta. rewrite build_screener_cons. cbv zeta. cbn [trace].
  rewrite valid_tickers_cons, calls_app, total_sleep_app, length_app.
  specialize (IH (world (screen_ticker provider (Screening [] [] w []) t))).
  cbv zeta in IH.
  destruct (is_valid_ticker t) eqn:Hv.
  - destruct (screen_valid_trace w t Hv) as (n & Hc & Hn & Ht & _).
    rewrite Hc, length_replicate. cbn [length]. lia.
  - rewrite (screen_invalid _ t Hv) in *. cbn [trace world] in *.
    change (total_sleep []) with 0%Z. change (calls []) with (@nil string).
    cbn [length]. lia.
Qed.

(** X10. Only valid tickers qualify: the qualifying list is a subsequence
    of the valid input tickers. *)
Theorem qualifying_are_valid tickers w :
  qualifying (build_screener provider tickers w)
  `sublist_of` valid_tickers tickers.
Proof.
  revert w. induction tickers as [|t tickers IH]; intros w; [done|].
  rewrite build_screener_cons. cbv zeta. cbn [qualifying].
  rewrite valid_tickers_cons.
  specialize (IH (world (screen_ticker provider (Screening [] [] w []) t))).
  destruct (is_valid_ticker t) eqn:Hv.
  - destruct (screen_valid_trace w t Hv) as (n & _ & _ & _ & [-> | ->]).
    + by apply sublist_cons.
    + by apply sublist_skip.
  - by rewrite (screen_invalid _ t Hv) in *.
Qed.

(** X11. Invalid tickers cost nothing: dropping them from the input changes
    neither the qualifying list, nor the provider's final state, nor the
    calls and pauses made. *)
Theorem invalid_tickers_are_free tickers w :
  let s := build_screener provider tickers w in
  let s' := build_screener provider (valid_tickers tickers) w in
  qualifying s' = qualifying s /\ world s' = world s /\ trace s' = trace s.
Proof.
  revert w. induction tickers as [|t tickers IH]; intros w; [done|].
  cbv zeta. rewrite valid_tickers_cons.
  destruct (is_valid_ticker t) eqn:Hv.
  - rewrite !build_screener_cons. cbv zeta. cbn [qualifying world trace].
    destruct (IH (world (screen_ticker provider (Screening [] [] w []) t)))
      as (-> & -> & ->). done.
  - rewrite (build_screener_cons provider t tickers). cbv zeta.
    rewrite (screen_invalid _ t Hv). cbn [qualifying world trace app].
    apply IH.
Qed.

(** X12. Screening a concatenation is screening the first list and then
    the second from the provider state the first run left: both result
    lists and the trace are the concatenations. *)
Theorem build_screener_concat l1 l2 w :
  let s1 := build_screener provider l1 w in
  let s2 := build_screener provider l2 (world s1) in
  let s := build_screener provider (l1 ++ l2) w in
  qualifying s = qualifying s1 ++ qualifying s2
  /\ all_results s = all_results s1 ++ all_results s2
  /\ world s = world s2
  /\ trace s = trace s1 ++ trace s2.
Proof. cbv zeta. by rewrite build_screener_app. Qed.

End ScreenerBounds.

(** ** More on the results folder *)



(** X14. For any positive [max_files], pruning leaves the smaller of
    [max_files] and the number of snapshot files there were; what it deletes
    are snapshot files no newer than any it keeps, and every other entry of
    the folder is as before. *)
Theorem prune_keeps_newest (folder : gmap string file) (max_files : Z) :
  (0 < max_files)%Z ->
  let kept := prune_old_results folder max_files in
  length (snapshot_files kept) =
    Nat.min (length (snapshot_files folder)) (Z.to_nat max_files)
  /\ (forall f,
        kept !! f = folder !! f
        \/ (kept !! f = None /\ f ∈ snapshot_files folder
            /\ forall g, g ∈ snapshot_files kept ->
                 (getmtime folder f <= getmtime folder g)%Z)).
Proof.
  intros Hpos kept. split; [by apply prune_count|].
  intros f. destruct (prune_lookup folder max_files Hpos f) as [Heq|[Hnone Hf]];
    [by left|right].
  split; [done|]. split; [done|]. intros g Hg.
  apply (prune_deletes_oldest folder max_files Hpos); [done| |done].
  rewrite elem_of_snapshot_files. intros [_ [x Hx]].
  unfold kept in *. rewrite Hnone in Hx. done.
Qed.

Example prune_ten_to_three :
  length (snapshot_files (prune_old_results ten_snapshots 3)) = 3.
Proof.
  destruct (prune_keeps_newest ten_snapshots 3) as [Hn _]; [lia|].
  rewrite Hn. vm_compute. reflexivity.
Defined.

(** X15. When the new snapshot is newer than every other snapshot in the
    folder it survives the pruning that follows its writing, holding the
    header and the qualifying symbols. *)
Theorem newest_snapshot_survives (qualifying : list string) (now : datetime)
    (written_at : Z) (folder : option (gmap string file)) :
  (forall f x, default ∅ folder !! f = Some x -> is_snapshot_name f = true ->
     f <> snapshot_name now -> (mtime x < written_at)%Z) ->
  save_recommended_results qualifying now written_at folder !! snapshot_name now
  = Some (File written_at (snapshot_text qualifying)).
Proof.
  intros Holder. unfold save_recommended_results. cbv zeta.
  set (new := File written_at (snapshot_text qualifying)).
  set (written := <[snapshot_name now := new]> (default ∅ folder)).
  assert (Hnew : written !! snapshot_name now = Some new)
    by apply lookup_insert_eq.
  assert (Hpos : (0 < 7)%Z) by lia.
  destruct (prune_lookup written 7 Hpos (snapshot_name now)) as [->|[Hnone Hin]];
    [done|].
  exfalso.
  assert (Hcount : length (snapshot_files (prune_old_results written 7)) =
                   Nat.min (length (snapshot_files written)) 7)
    by (by apply prune_count).
  assert (Hmany : 7 < length (snapshot_files written)).
  { destruct (decide (length (snapshot_files written) <= 7)) as [Hle|]; [|lia].
    rewrite (prune_few written 7) in Hnone by (simpl; lia). congruence. }
  destruct (snapshot_files (prune_old_results written 7)) as [|g rest] eqn:Ekept;
    [simpl in Hcount; lia|].
  assert (Hg : g ∈ snapshot_files (prune_old_results written 7))
    by (rewrite Ekept; by left).
  assert (Hgone : snapshot_name now ∉ snapshot_files (prune_old_results written 7)).
  { rewrite elem_of_snapshot_files. intros [_ [x Hx]]. congruence. }
  pose proof (prune_deletes_oldest written 7 Hpos _ _ Hin Hgone Hg) as Hle.
  apply elem_of_snapshot_files in Hg as [Hsnap [x Hx]].
  assert (Hne : g <> snapshot_name now) by (intros ->; congruence).
  destruct (prune_lookup written 7 Hpos g) as [Heq|[Hn _]]; [|congruence].
  rewrite Hx in Heq. unfold written in Heq. rewrite lookup_insert_ne in Heq by done.
  pose proof (Holder g x (eq_sym Heq) Hsnap Hne) as Hlt.
  unfold getmtime in Hle. rewrite Hnew in Hle.
  unfold written in Hle. rewrite lookup_insert_ne, <- Heq in Hle by done.
  simpl in Hle. lia.
Qed.

Example eleventh_snapshot_survives :
  save_recommended_results ["AAA"] (day_stamp 11) 11 (Some ten_snapshots)
    !! snapshot_name (day_stamp 11)
  = Some (File 11 (snapshot_text ["AAA"])).
Proof.
  apply newest_snapshot_survives. intros f x Hf _ _.
  unfold ten_snapshots in Hf. apply elem_of_list_to_map_2 in Hf.
  apply list_elem_of_fmap in Hf as (d & Heq & Hd). injection Heq as _ ->.
  apply elem_of_seq in Hd. simpl. lia.
Defined.

Lemma digit_inj a b : digit a = digit b -> a mod 10 = b mod 10.
Proof.
  unfold digit. intros H. apply (f_equal nat_of_ascii) in H.
  pose proof (Nat.mod_upper_bound a 10 ltac:(lia)).
  pose proof (Nat.mod_upper_bound b 10 ltac:(lia)).
  rewrite !nat_ascii_embedding in H by lia. lia.
Qed.

Lemma two_digits_inj a b :
  a < 100 -> b < 100 ->
  (a / 10) mod 10 = (b / 10) mod 10 -> a mod 10 = b mod 10 -> a = b.
Proof.
  intros Ha Hb H1 H0.
  assert (a / 10 < 10) by (apply Nat.Div0.div_lt_upper_bound; lia).
  assert (b / 10 < 10) by (apply Nat.Div0.div_lt_upper_bound; lia).
  rewrite !(Nat.mod_small (_ / 10)) in H1 by lia.
  pose proof (Nat.div_mod_eq a 10). pose proof (Nat.div_mod_eq b 10). lia.
Qed.

Lemma four_digits_inj a b :
  a < 10 * 1000 -> b < 10 * 1000 ->
  (a / 1000) mod 10 = (b / 1000) mod 10 -> (a / 100) mod 10 = (b / 100) mod 10 ->
  (a / 10) mod 10 = (b / 10) mod 10 -> a mod 10 = b mod 10 -> a = b.
Proof.
  intros Ha Hb H3 H2 H1 H0.
  replace (a / 1000) with (a / 10 / 10 / 10) in H3
    by (rewrite !Nat.Div0.div_div; reflexivity).
  replace (b / 1000) with (b / 10 / 10 / 10) in H3
    by (rewrite !Nat.Div0.div_div; reflexivity).
  replace (a / 100) with (a / 10 / 10) in H2
    by (rewrite !Nat.Div0.div_div; reflexivity).
  replace (b / 100) with (b / 10 / 10) in H2
    by (rewrite !Nat.Div0.div_div; reflexivity).
  assert (a / 10 < 1000) by (apply Nat.Div0.div_lt_upper_bound; lia).
  assert (b / 10 < 1000) by (apply Nat.Div0.div_lt_upper_bound; lia).
  assert (a / 10 / 10 < 100) by (apply Nat.Div0.div_lt_upper_bound; lia).
  assert (b / 10 / 10 < 100) by (apply Nat.Div0.div_lt_upper_bound; lia).
  assert (a / 10 / 10 / 10 < 10) by (apply Nat.Div0.div_lt_upper_bound; lia).
  assert (b / 10 / 10 / 10 < 10) by (apply Nat.Div0.div_lt_upper_bound; lia).
  rewrite !(Nat.mod_small (_ / 10 / 10 / 10)) in H3 by lia.
  pose proof (Nat.div_mod_eq a 10). pose proof (Nat.div_mod_eq b 10).
  pose proof (Nat.div_mod_eq (a / 10) 10). pose proof (Nat.div_mod_eq (b / 10) 10).
  pose proof (Nat.div_mod_eq (a / 10 / 10) 10).
  pose proof (Nat.div_mod_eq (b / 10 / 10) 10).
  lia.
Qed.

Lemma snapshot_name_inj (now1 now2 : datetime) :
  in_range now1 -> in_range now2 ->
  snapshot_name now1 = snapshot_name now2 -> now1 = now2.
Proof.
  intros (Hy1 & Hm1 & Hd1 & Hh1 & Hn1 & Hs1) (Hy2 & Hm2 & Hd2 & Hh2 & Hn2 & Hs2).
  destruct now1 as [y1 m1 d1 h1 n1 s1], now2 as [y2 m2 d2 h2 n2 s2].
  cbn [year month day hour minute second] in *.
  unfold snapshot_name. intros H. apply (inj (String.app "results_")) in H.
  lazy beta iota delta [strftime pad4 pad2 String.append
                          year month day hour minute second] in H.
  injection H as Hy3 Hy2' Hy1' Hy0 Hm1' Hm0 Hd1' Hd0 Hh1' Hh0 Hn1' Hn0 Hs1' Hs0.
  apply digit_inj in Hy3, Hy2', Hy1', Hy0, Hm1', Hm0, Hd1', Hd0, Hh1', Hh0,
    Hn1', Hn0, Hs1', Hs0.
  f_equal.
  - apply four_digits_inj; try assumption; lia.
  - apply two_digits_inj; try assumption; lia.
  - apply two_digits_inj; try assumption; lia.
  - apply two_digits_inj; try assumption; lia.
  - apply two_digits_inj; try assumption; lia.
  - apply two_digits_inj; try assumption; lia.
Qed.

(** X16. Different clock readings give different timestamps, so two saves
    at different seconds write two different snapshot files. *)
Theorem snapshot_names_differ (now1 now2 : datetime) :
  in_range now1 -> in_range now2 ->
  now1 <> now2 -> snapshot_name now1 <> snapshot_name now2.
Proof. intros H1 H2 Hne Heq. by apply Hne, snapshot_name_inj. Qed.

Example day_stamps_differ :
  snapshot_name (day_stamp 3) <> snapshot_name (day_stamp 4).
Proof.
  apply snapshot_names_differ; [unfold in_range; simpl; lia ..|discriminate].
Defined.

(** ** The ticker list *)

Lemma rstrip_app_nl s : rstrip (s +:+ nl) = rstrip s.
Proof.
  induction s as [|c s IH]; [done|].
  change (String c s +:+ nl) with (String c (s +:+ nl)).
  cbn [rstrip]. by rewrite IH.
Qed.

Lemma lstrip_app_nl s :
  lstrip (s +:+ nl) =
  match lstrip s with EmptyString => EmptyString | kept => kept +:+ nl end.
Proof.
  induction s as [|c s IH]; [done|].
  change (String c s +:+ nl) with (String c (s +:+ nl)).
  cbn [lstrip]. destruct (is_space c); [done|]. reflexivity.
Qed.

Lemma strip_app_nl s : strip (s +:+ nl) = strip s.
Proof.
  unfold strip. rewrite lstrip_app_nl.
  destruct (lstrip s) eqn:E; [done|]. apply rstrip_app_nl.
Qed.

Lemma has_linebreak_cons c s :
  has_linebreak (String c s) = (Ascii.eqb c LF || Ascii.eqb c CR) || has_linebreak s.
Proof. reflexivity. Qed.

Lemma has_linebreak_app a b :
  has_linebreak (a +:+ b) = has_linebreak a || has_linebreak b.
Proof.
  induction a as [|c a IH]; [done|].
  change (String c a +:+ b) with (String c (a +:+ b)).
  rewrite !has_linebreak_cons, IH. by rewrite orb_assoc.
Qed.

Lemma lstrip_no_linebreak s :
  has_linebreak s = false -> has_linebreak (lstrip s) = false.
Proof.
  induction s as [|c s IH]; [done|]. intros H. cbn [lstrip].
  destruct (is_space c); [|done].
  rewrite has_linebreak_cons in H. apply orb_false_iff in H as [_ H]. auto.
Qed.

Lemma rstrip_no_linebreak s :
  has_linebreak s = false -> has_linebreak (rstrip s) = false.
Proof.
  induction s as [|c s IH]; [done|]. intros H.
  rewrite has_linebreak_cons in H. apply orb_false_iff in H as [Hc H].
  cbn [rstrip]. specialize (IH H). destruct (rstrip s) eqn:E.
  - destruct (is_space c); [done|]. by rewrite has_linebreak_cons, Hc.
  - by rewrite has_linebreak_cons, Hc, IH.
Qed.

Lemma lstrip_idem s : lstrip (lstrip s) = lstrip s.
Proof.
  induction s as [|c s IH]; [done|]. cbn [lstrip].
  destruct (is_space c) eqn:E; [done|]. cbn [lstrip]. by rewrite E.
Qed.

Lemma rstrip_idem s : rstrip (rstrip s) = rstrip s.
Proof.
  induction s as [|c s IH]; [done|]. cbn [rstrip].
  destruct (rstrip s) eqn:E.
  - destruct (is_space c) eqn:Ec; [done|]. cbn [rstrip]. by rewrite Ec.
  - cbn [rstrip]. cbn [rstrip] in IH. by rewrite IH.
Qed.

(** Stripping the right end leaves a string that still starts as it did. *)
Lemma lstrip_rstrip s : lstrip s = s -> lstrip (rstrip s) = rstrip s.
Proof.
  destruct s as [|c s]; [done|]. cbn [lstrip rstrip].
  destruct (is_space c) eqn:E.
  - intros H. exfalso.
    assert (Hlen : forall t, String.length (lstrip t) <= String.length t).
    { induction t as [|d t IHt]; [done|]. cbn [lstrip].
      destruct (is_space d); simpl; lia. }
    specialize (Hlen s). rewrite H in Hlen. simpl in Hlen. lia.
  - intros _. destruct (rstrip s); cbn [lstrip]; by rewrite E.
Qed.

Lemma strip_idem s : strip (strip s) = strip s.
Proof.
  unfold strip. rewrite (lstrip_rstrip (lstrip s)) by apply lstrip_idem.
  apply rstrip_idem.
Qed.

Lemma translate_no_cr s : has_cr (translate_newlines s) = false.
Proof.
  assert (H : forall s, has_cr (translate_newlines s) = false
                        /\ forall c, has_cr (translate_newlines (String c s)) = false).
  { clear s. induction s as [|d s [IH1 IH2]].
    - split; [done|]. intros c. cbn [translate_newlines].
      destruct (Ascii.eqb c CR) eqn:E; [done|].
      unfold has_cr. simpl. by rewrite E.
    - split; [apply IH2|]. intros c.
      change (translate_newlines (String c (String d s))) with
        (if Ascii.eqb c CR
         then if Ascii.eqb d LF then String LF (translate_newlines s)
              else String LF (translate_newlines (String d s))
         else String c (translate_newlines (String d s))).
      destruct (Ascii.eqb c CR) eqn:E.
      + destruct (Ascii.eqb d LF).
        * unfold has_cr in *. simpl. exact IH1.
        * unfold has_cr in *. simpl. exact (IH2 d).
      + unfold has_cr in *. cbn [String.list_ascii_of_string existsb].
        rewrite E. exact (IH2 d). }
  apply H.
Qed.

Lemma lines_of_lines s : has_cr s = false -> Forall is_line (lines_of s).
Proof.
  induction s as [|c s IH]; [constructor|]. intros Hcr.
  unfold has_cr in Hcr. cbn [String.list_ascii_of_string existsb] in Hcr.
  apply orb_false_iff in Hcr as [Hc Hcr]. specialize (IH Hcr).
  cbn [lines_of]. destruct (Ascii.eqb c LF) eqn:E.
  - constructor; [|done]. exists EmptyString. split; [done|]. by right.
  - destruct (lines_of s) as [|line more].
    + constructor; [|done]. exists (String c EmptyString). split; [|by left].
      rewrite has_linebreak_cons, E, Hc. done.
    + apply Forall_cons in IH as [(body & Hb & Hline) IH].
      constructor; [|done]. exists (String c body). split.
      * by rewrite has_linebreak_cons, E, Hc, Hb.
      * destruct Hline as [-> | ->]; [by left | by right].
Qed.

Lemma read_tickers_all_clean (content : string) :
  Forall clean (read_tickers content).
Proof.
  unfold read_tickers. apply Forall_forall. intros t Ht.
  apply list_elem_of_filter in Ht as [Hne Ht].
  apply list_elem_of_fmap in Ht as (line & -> & Hline).
  pose proof (lines_of_lines _ (translate_no_cr content)) as Hall.
  rewrite Forall_forall in Hall. destruct (Hall line Hline) as (body & Hb & Hl).
  split; [done|]. split; [apply strip_idem|].
  assert (Hs : strip line = strip body).
  { destruct Hl as [-> | ->]; [done | apply strip_app_nl]. }
  rewrite Hs. unfold strip. by apply rstrip_no_linebreak, lstrip_no_linebreak.
Qed.



Lemma ticker_lines_acc tickers acc :
  fold_left (fun text ticker => text +:+ ticker +:+ nl) tickers acc =
  acc +:+ ticker_lines tickers.
Proof.
  unfold ticker_lines. revert acc.
  induction tickers as [|t tickers IH]; intros acc; simpl.
  - clear. induction acc as [|c acc IH]; [done|].
    change (String c acc = String c (acc +:+ "")). by rewrite <- IH.
  - rewrite IH, (IH (_ +:+ _)). by rewrite !append_assoc.
Qed.

Lemma ticker_lines_cons t tickers :
  ticker_lines (t :: tickers) = (t +:+ nl) +:+ ticker_lines tickers.
Proof.
  unfold ticker_lines at 1. cbn [fold_left]. rewrite ticker_lines_acc.
  reflexivity.
Qed.

Lemma has_cr_app a b : has_cr (a +:+ b) = has_cr a || has_cr b.
Proof.
  induction a as [|c a IH]; [done|].
  change (String c a +:+ b) with (String c (a +:+ b)).
  unfold has_cr in *. cbn [String.list_ascii_of_string existsb].
  by rewrite IH, orb_assoc.
Qed.

Lemma no_linebreak_no_cr s : has_linebreak s = false -> has_cr s = false.
Proof.
  induction s as [|c s IH]; [done|]. rewrite has_linebreak_cons.
  intros H. apply orb_false_iff in H as [Hc H]. apply orb_false_iff in Hc as [_ Hc].
  unfold has_cr in *. cbn [String.list_ascii_of_string existsb].
  by rewrite Hc, IH.
Qed.

Lemma translate_id s : has_cr s = false -> translate_newlines s = s.
Proof.
  induction s as [|c s IH]; [done|]. intros H.
  unfold has_cr in H. cbn [String.list_ascii_of_string existsb] in H.
  apply orb_false_iff in H as [Hc H].
  cbn [translate_newlines]. rewrite Hc. by rewrite IH.
Qed.

Lemma lines_of_line t rest :
  has_linebreak t = false ->
  lines_of ((t +:+ nl) +:+ rest) = (t +:+ nl) :: lines_of rest.
Proof.
  induction t as [|c t IH]; [done|]. rewrite has_linebreak_cons.
  intros H. apply orb_false_iff in H as [Hc H]. apply orb_false_iff in Hc as [Hc _].
  change ((String c t +:+ nl) +:+ rest) with (String c ((t +:+ nl) +:+ rest)).
  cbn [lines_of]. rewrite Hc, (IH H). reflexivity.
Qed.

Lemma ticker_lines_no_cr tickers :
  Forall clean tickers -> has_cr (ticker_lines tickers) = false.
Proof.
  induction 1 as [|t tickers (_ & _ & Hlb) _ IH]; [done|].
  rewrite ticker_lines_cons, !has_cr_app, IH.
  by rewrite (no_linebreak_no_cr t Hlb).
Qed.

Lemma read_ticker_lines (tickers : list string) :
  Forall clean tickers -> read_tickers (ticker_lines tickers) = tickers.
Proof.
  intros Hall. unfold read_tickers.
  rewrite translate_id by by apply ticker_lines_no_cr.
  induction Hall as [|t tickers (Hne & Hstrip & Hlb) _ IH]; [done|].
  rewrite ticker_lines_cons, lines_of_line by done.
  cbn [fmap list_fmap]. rewrite filter_cons, strip_app_nl, Hstrip.
  rewrite decide_True by done. f_equal. exact IH.
Qed.

(** X18. Writing a list of tickers to the list file and reading it back
    gives the same list exactly when every ticker is clean: not empty, no
    white space at either end, no line break inside. *)
Theorem read_written_tickers (tickers : list string) :
  read_tickers (ticker_lines tickers) = tickers <-> Forall clean tickers.
Proof.
  split; [|apply read_ticker_lines].
  intros H. rewrite <- H. apply read_tickers_all_clean.
Qed.

Example read_written_examples :
  read_tickers (ticker_lines ["AAPL"; "BRK.B"; "ZM"]) = ["AAPL"; "BRK.B"; "ZM"].
Proof. apply read_written_tickers. repeat constructor; done. Defined.

Example unclean_tickers_not_read_back :
  read_tickers (ticker_lines [""; " AAPL"; "ZM"]) = ["AAPL"; "ZM"].
Proof. vm_compute. reflexivity. Qed.

Lemma sorted_set_spec l :
  StronglySorted String.le (sorted_set l)
  /\ NoDup (sorted_set l)
  /\ forall t, t ∈ sorted_set l <-> t ∈ l.
Proof.
  unfold sorted_set. split; [apply StronglySorted_merge_sort; apply _|]. split.
  - rewrite merge_sort_Permutation. apply NoDup_remove_dups.
  - intros t. rewrite merge_sort_Permutation. apply elem_of_remove_dups.
Qed.

(** X19. When the three index calls succeed, [generate_ticker_list] returns
    the tickers of the three lists in ascending order, each once, and leaves
    exactly these, one per line, in the list file. *)
Theorem generate_ticker_list_sorted filename idx (fs : gmap string string)
    sp500 nasdaq dow :
  tickers_sp500 idx = Ok sp500 ->
  tickers_nasdaq idx = Ok nasdaq ->
  tickers_dow idx = Ok dow ->
  exists tickers,
    generate_ticker_list filename idx fs =
      (tickers, <[filename := ticker_lines tickers]> fs)
    /\ StronglySorted String.le tickers
    /\ NoDup tickers
    /\ forall t, t ∈ tickers <-> t ∈ sp500 \/ t ∈ nasdaq \/ t ∈ dow.
Proof.
  intros H1 H2 H3. exists (sorted_set (sp500 ++ nasdaq ++ dow)).
  unfold generate_ticker_list. rewrite H1, H2, H3. split; [done|].
  destruct (sorted_set_spec (sp500 ++ nasdaq ++ dow)) as (Hs & Hn & Hm).
  split; [done|]. split; [done|].
  intros t. by rewrite Hm, !elem_of_app.
Qed.

Example generate_small :
  exists tickers,
    generate_ticker_list "us_stocks.txt" small_indexes ∅ =
      (tickers, <["us_stocks.txt" := ticker_lines tickers]> ∅)
    /\ NoDup tickers.
Proof.
  destruct (generate_ticker_list_sorted "us_stocks.txt" small_indexes ∅
              ["MMM"; "AAPL"; "BRK.B"] ["AAPL"; "ZM"] ["MMM"; "AXP"]
              eq_refl eq_refl eq_refl) as (tickers & Hg & _ & Hn & _).
  by exists tickers.
Defined.

(** X20. When any of the three index calls raises, [generate_ticker_list]
    returns the empty list and writes nothing: an existing list file keeps
    its content. *)
Theorem generate_ticker_list_failure filename idx (fs : gmap string string) :
  (exists e, tickers_sp500 idx = Raise e)
  \/ (exists e, tickers_nasdaq idx = Raise e)
  \/ (exists e, tickers_dow idx = Raise e) ->
  generate_ticker_list filename idx fs = ([], fs).
Proof.
  unfold generate_ticker_list.
  intros [[e He]|[[e He]|[e He]]]; rewrite He.
  - done.
  - by destruct (tickers_sp500 idx).
  - by destruct (tickers_sp500 idx), (tickers_nasdaq idx).
Qed.

Example generate_broken :
  generate_ticker_list "us_stocks.txt" broken_indexes ∅ = ([], ∅).
Proof.
  apply generate_ticker_list_failure. right. left. by eexists.
Defined.

(** X21. A missing list file is generated once: when the index tickers are
    clean, [load_tickers] writes the file and returns the list, and every
    later [load_tickers] returns the same list from the file, whatever the
    index calls would answer by then, and changes nothing. *)
Theorem load_tickers_twice filename idx idx' (fs : gmap string string)
    sp500 nasdaq dow :
  fs !! filename = None ->
  tickers_sp500 idx = Ok sp500 ->
  tickers_nasdaq idx = Ok nasdaq ->
  tickers_dow idx = Ok dow ->
  Forall clean (sp500 ++ nasdaq ++ dow) ->
  let first := load_tickers filename idx fs in
  first.2 !! filename = Some (ticker_lines first.1)
  /\ load_tickers filename idx' first.2 = first.
Proof.
  intros Hnone H1 H2 H3 Hclean first.
  set (tickers := sorted_set (sp500 ++ nasdaq ++ dow)).
  assert (Hfirst : first = (tickers, <[filename := ticker_lines tickers]> fs)).
  { unfold first, load_tickers, generate_ticker_list.
    by rewrite Hnone, H1, H2, H3. }
  rewrite Hfirst. cbn [fst snd]. split; [apply lookup_insert_eq|].
  unfold load_tickers. rewrite lookup_insert_eq. f_equal.
  apply read_ticker_lines. rewrite Forall_forall in Hclean |- *.
  intros t Ht. apply Hclean. by apply sorted_set_spec.
Qed.

Example load_small_twice :
  load_tickers "us_stocks.txt" broken_indexes
    (load_tickers "us_stocks.txt" small_indexes ∅).2
  = load_tickers "us_stocks.txt" small_indexes ∅.
Proof.
  destruct (load_tickers_twice "us_stocks.txt" small_indexes broken_indexes ∅
              ["MMM"; "AAPL"; "BRK.B"] ["AAPL"; "ZM"] ["MMM"; "AXP"])
    as [_ H];
    [reflexivity | reflexivity | reflexivity | reflexivity
    | repeat constructor; done | exact H].
Defined.

(** ** The e-mail *)

Lemma string_ind3 (P : string -> Prop) :
  P EmptyString ->
  (forall a, P (String a EmptyString)) ->
  (forall a b, P (String a (String b EmptyString))) ->
  (forall a b c rest, P rest -> P (String a (String b (String c rest)))) ->
  forall s, P s.
Proof.
  intros H0 H1 H2 H3 s.
  assert (H : P s /\ (forall a, P (String a s))
              /\ (forall a b, P (String a (String b s)))).
  { induction s as [|c s (IH0 & IH1 & IH2)]; [done|].
    split; [apply IH1|]. split; [intros a; apply IH2|]. intros a b. by apply H3. }
  apply H.
Qed.

Lemma b64_value_char v : v < 64 -> b64_value (b64_char v) = Some v.
Proof.
  intros Hv.
  assert (Hall : forallb (fun v => match b64_value (b64_char v) with
                                   | Some w => w =? v
                                   | None => false
                                   end) (seq 0 64) = true)
    by (vm_compute; reflexivity).
  rewrite forallb_forall in Hall. specialize (Hall v).
  destruct (b64_value (b64_char v)) as [w|].
  - f_equal. apply Nat.eqb_eq, Hall, in_seq. lia.
  - discriminate Hall. apply in_seq. lia.
Qed.

Lemma b64_char_not_pad v : v < 64 -> Ascii.eqb (b64_char v) "=" = false.
Proof.
  intros Hv.
  assert (Hall : forallb (fun v => negb (Ascii.eqb (b64_char v) "=")) (seq 0 64)
                 = true) by (vm_compute; reflexivity).
  rewrite forallb_forall in Hall. apply negb_true_iff, Hall, in_seq. lia.
Qed.

Lemma byte_bound c : nat_of_ascii c < 256.
Proof. apply nat_ascii_bounded. Qed.

Lemma div_add_small q r k : 0 < k -> r < k -> (q * k + r) / k = q.
Proof.
  intros Hk Hr. rewrite Nat.div_add_l by lia. rewrite (Nat.div_small r k) by lia. lia.
Qed.

Lemma mod_add_small q r k : 0 < k -> r < k -> (q * k + r) mod k = r.
Proof.
  intros Hk Hr. rewrite Nat.add_comm, Nat.Div0.mod_add. by apply Nat.mod_small.
Qed.

Lemma div_mod_back x k : 0 < k -> x / k * k + x mod k = x.
Proof. intros Hk. pose proof (Nat.div_mod_eq x k). lia. Qed.

(** The sextets of a group are below 64 and give the bytes back. *)
Lemma group_sextets x y z :
  x < 256 -> y < 256 -> z < 256 ->
  x / 4 < 64 /\ x mod 4 * 16 + y / 16 < 64 /\ y mod 16 * 4 + z / 64 < 64
  /\ z mod 64 < 64
  /\ x / 4 * 4 + (x mod 4 * 16 + y / 16) / 16 = x
  /\ (x mod 4 * 16 + y / 16) mod 16 * 16 + (y mod 16 * 4 + z / 64) / 4 = y
  /\ (y mod 16 * 4 + z / 64) mod 4 * 64 + z mod 64 = z.
Proof.
  intros Hx Hy Hz.
  assert (x / 4 < 64) by (apply Nat.Div0.div_lt_upper_bound; lia).
  assert (y / 16 < 16) by (apply Nat.Div0.div_lt_upper_bound; lia).
  assert (z / 64 < 4) by (apply Nat.Div0.div_lt_upper_bound; lia).
  pose proof (Nat.mod_upper_bound x 4 ltac:(lia)).
  pose proof (Nat.mod_upper_bound y 16 ltac:(lia)).
  pose proof (Nat.mod_upper_bound z 64 ltac:(lia)).
  rewrite !div_add_small, !mod_add_small by lia.
  rewrite !div_mod_back by lia.
  repeat split; lia.
Qed.

Lemma b64decode_encode s : b64decode (b64encode s) = Some s.
Proof.
  induction s as [|a|a b|a b c rest IH] using string_ind3.
  - done.
  - pose proof (byte_bound a) as Ha.
    destruct (group_sextets (nat_of_ascii a) 0 0 Ha) as (H0 & H1 & _ & _ & E0 & _);
      [lia..|].
    rewrite Nat.add_0_r in H1, E0.
    cbn [b64encode b64decode]. cbv zeta.
    rewrite !b64_value_char by done. cbn [mbind option_bind].
    change (Ascii.eqb "=" "=") with true. cbn [andb String.eqb].
    by rewrite E0, ascii_nat_embedding.
  - pose proof (byte_bound a) as Ha. pose proof (byte_bound b) as Hb.
    destruct (group_sextets (nat_of_ascii a) (nat_of_ascii b) 0 Ha Hb)
      as (H0 & H1 & H2 & _ & E0 & E1 & _); [lia|].
    rewrite Nat.add_0_r in H2, E1.
    cbn [b64encode b64decode]. cbv zeta.
    rewrite !b64_value_char, !b64_char_not_pad by done. cbn [mbind option_bind].
    change (Ascii.eqb "=" "=") with true. cbn [String.eqb].
    by rewrite E0, E1, !ascii_nat_embedding.
  - pose proof (byte_bound a) as Ha. pose proof (byte_bound b) as Hb.
    pose proof (byte_bound c) as Hc.
    destruct (group_sextets _ _ _ Ha Hb Hc)
      as (H0 & H1 & H2 & H3 & E0 & E1 & E2).
    cbn [b64encode b64decode]. cbv zeta.
    rewrite !b64_value_char, !b64_char_not_pad by done.
    rewrite IH. cbn [mbind option_bind].
    by rewrite E0, E1, E2, !ascii_nat_embedding.
Qed.

Lemma b64_char_in_alphabet v : v < 64 -> is_b64_char (b64_char v) = true.
Proof. intros Hv. unfold is_b64_char. by rewrite b64_value_char. Qed.

Lemma b64encode_alphabet s :
  forallb is_b64_char (String.list_ascii_of_string (b64encode s)) = true.
Proof.
  induction s as [|a|a b|a b c rest IH] using string_ind3.
  - done.
  - pose proof (byte_bound a) as Ha.
    destruct (group_sextets (nat_of_ascii a) 0 0 Ha) as (H0 & H1 & _); [lia..|].
    rewrite Nat.add_0_r in H1.
    cbn [b64encode String.list_ascii_of_string forallb]. cbv zeta.
    by rewrite !b64_char_in_alphabet.
  - pose proof (byte_bound a) as Ha. pose proof (byte_bound b) as Hb.
    destruct (group_sextets (nat_of_ascii a) (nat_of_ascii b) 0 Ha Hb)
      as (H0 & H1 & H2 & _); [lia|].
    rewrite Nat.add_0_r in H2.
    cbn [b64encode String.list_ascii_of_string forallb]. cbv zeta.
    by rewrite !b64_char_in_alphabet.
  - pose proof (byte_bound a) as Ha. pose proof (byte_bound b) as Hb.
    pose proof (byte_bound c) as Hc.
    destruct (group_sextets _ _ _ Ha Hb Hc) as (H0 & H1 & H2 & H3 & _).
    cbn [b64encode String.list_ascii_of_string forallb]. cbv zeta.
    by rewrite !b64_char_in_alphabet, IH.
Qed.

Lemma b64encode_length s :
  String.length (b64encode s) = 4 * ((String.length s + 2) / 3).
Proof.
  induction s as [|a|a b|a b c rest IH] using string_ind3; [done..|].
  cbn [b64encode String.length]. cbv zeta. rewrite IH.
  replace (S (S (S (String.length rest))) + 2)
    with (String.length rest + 2 + 1 * 3) by lia.
  rewrite Nat.div_add by lia. lia.
Qed.

(** X22. The SASL string is plain Base64: it decodes back to
    [user=<name>^Aauth=Bearer <token>^A^A], consists of Base64 characters
    and padding only, and has four characters for every three bytes of that
    text, rounded up. *)
Theorem generate_oauth2_string_decodes (username access_token : string) :
  let encoded := generate_oauth2_string username access_token in
  let plain := auth_string username access_token in
  b64decode encoded = Some plain
  /\ forallb is_b64_char (String.list_ascii_of_string encoded) = true
  /\ String.length encoded = 4 * ((String.length plain + 2) / 3).
Proof.
  cbv zeta. unfold generate_oauth2_string.
  split; [apply b64decode_encode|].
  split; [apply b64encode_alphabet | apply b64encode_length].
Qed.






(** ** The entry point *)

Lemma save_all_results_other rs filename now (fs : gmap string string) g :
  g <> filename -> save_all_results rs filename now fs !! g = fs !! g.
Proof.
  intros Hne. unfold save_all_results.
  by rewrite append_write_other, write_lines_other, append_write_other.
Qed.

Lemma save_recommended_results_count qualifying now written_at folder :
  length (snapshot_files
            (save_recommended_results qualifying now written_at folder)) <= 7.
Proof.
  unfold save_recommended_results. cbv zeta. rewrite prune_count by lia. lia.
Qed.

Section MainFacts.

Context {W : Type}.
Variable provider : string -> W -> result snapshot * W.
Variable send_test_email : machine W -> machine W.

(** X24. With nothing to screen the run stops before screening: when the
    list file has no non-blank line, or is missing while an index call
    fails, [main] makes no provider call and writes neither an audit block
    nor a snapshot -- the machine is left exactly as it was. *)
Theorem main_without_tickers argv idx clk (m : machine W) :
  "--test-email" ∉ argv ->
  (exists content, texts m !! "us_stocks.txt" = Some content
                   /\ read_tickers content = [])
  \/ (texts m !! "us_stocks.txt" = None
      /\ ((exists e, tickers_sp500 idx = Raise e)
          \/ (exists e, tickers_nasdaq idx = Raise e)
          \/ (exists e, tickers_dow idx = Raise e))) ->
  main provider send_test_email argv idx clk m = m.
Proof.
  intros Hflag Hcase. unfold main. rewrite decide_False by done.
  assert (Hload : load_tickers "us_stocks.txt" idx (texts m) = ([], texts m)).
  { unfold load_tickers. destruct Hcase as [(content & -> & ->)|[-> Hfail]]; [done|].
    unfold generate_ticker_list.
    destruct Hfail as [[e He]|[[e He]|[e He]]]; rewrite He.
    - done.
    - by destruct (tickers_sp500 idx).
    - by destruct (tickers_sp500 idx), (tickers_nasdaq idx). }
  rewrite Hload. by destruct m.
Qed.

(** X25. A normal run over an existing list file: the audit file grows by
    one block holding one verdict line for each non-blank line of the list
    file, in file order; the list file and every other text file are as
    before; the results folder exists afterwards and holds at most seven
    snapshots; and the provider was called for valid tickers only. *)
Theorem main_screens_list_file argv idx clk (m : machine W) content :
  "--test-email" ∉ argv ->
  texts m !! "us_stocks.txt" = Some content ->
  read_tickers content <> [] ->
  let m' := main provider send_test_email argv idx clk m in
  exists lines folder added,
    Forall2 verdict_for (read_tickers content) lines
    /\ texts m' !! "all_stocks_results.txt" =
       Some (default "" (texts m !! "all_stocks_results.txt")
             +:+ run_block (audit_stamp clk) lines)
    /\ (forall f, f <> "all_stocks_results.txt" -> texts m' !! f = texts m !! f)
    /\ results_folder m' = Some folder
    /\ length (snapshot_files folder) <= 7
    /\ journal m' = journal m ++ added
    /\ Forall (fun t => t ∈ valid_tickers (read_tickers content)) (calls added).
Proof.
  intros Hflag Hfile Hne m'. unfold m', main. rewrite decide_False by done.
  unfold load_tickers. rewrite Hfile.
  destruct (read_tickers content) as [|t tickers] eqn:Et; [done|].
  set (s := build_screener provider (t :: tickers) (market m)).
  exists (all_results s),
    (save_recommended_results (qualifying s) (snapshot_stamp clk)
       (snapshot_mtime clk) (results_folder m)),
    (trace s).
  cbn [texts results_folder journal].
  split; [apply build_screener_verdicts|].
  split; [apply save_all_results_lookup|].
  split; [intros f Hf; by apply save_all_results_other|].
  split; [done|]. split; [apply save_recommended_results_count|].
  split; [done|]. apply calls_are_valid.
Qed.

End MainFacts.

Example main_on_blank_list :
  main table_provider id [] small_indexes march_clock
    (fresh_machine ("  " +:+ nl +:+ nl))
  = fresh_machine ("  " +:+ nl +:+ nl).
Proof.
  apply main_without_tickers.
  - apply not_elem_of_nil.
  - left. exists ("  " +:+ nl +:+ nl). split; reflexivity.
Defined.

Example main_on_three_tickers :
  let m' := main table_provider id ["stock_screener.py"] small_indexes march_clock
              (fresh_machine (ticker_lines ["AAA"; "BBB"; "--"])) in
  exists lines,
    Forall2 verdict_for ["AAA"; "BBB"; "--"] lines
    /\ texts m' !! "all_stocks_results.txt" =
       Some (run_block (day_stamp 11) lines).
Proof.
  destruct (main_screens_list_file table_provider id ["stock_screener.py"]
              small_indexes march_clock
              (fresh_machine (ticker_lines ["AAA"; "BBB"; "--"]))
              (ticker_lines ["AAA"; "BBB"; "--"]))
    as (lines & folder & added & Hv & Hlog & _).
  - rewrite list_elem_of_singleton. discriminate.
  - reflexivity.
  - vm_compute. discriminate.
  - exists lines. split; [exact Hv | exact Hlog].
Defined.

(** ** The fetcher as a whole, and fields the predicate ignores *)

Section FetcherAnswer.

Context {W : Type}.
Variable provider : string -> W -> result snapshot * W.

Lemma fetch_loop_answer ticker m n delay w tr :
  exists k w1,
    k <= n /\ rate_limited provider ticker k w = Some w1
    /\ ((k = n
         /\ fetch_loop provider ticker m n delay w tr =
            (Raise (exhausted_message ticker m), w1,
             tr ++ backoff_trace ticker k delay))
        \/ (k < n
            /\ exists r w2,
                provider ticker w1 = (r, w2)
                /\ (forall e, r = Raise e -> retryable e = false)
                /\ fetch_loop provider ticker m n delay w tr =
                   (r, w2, tr ++ backoff_trace ticker k delay
                               ++ [ProviderCall ticker]))).
Proof.
  revert delay w tr. induction n as [|n IH]; intros delay w tr.
  { exists 0, w. split; [done|]. split; [done|]. left. split; [done|].
    simpl. by rewrite app_nil_r. }
  destruct (provider ticker w) as [r w'] eqn:Ecall.
  assert (Hstop : (forall e, r = Raise e -> retryable e = false) ->
            exists k w1,
              k <= S n /\ rate_limited provider ticker k w = Some w1
              /\ ((k = S n
                   /\ fetch_loop provider ticker m (S n) delay w tr =
                      (Raise (exhausted_message ticker m), w1,
                       tr ++ backoff_trace ticker k delay))
                  \/ (k < S n
                      /\ exists r0 w2,
                          provider ticker w1 = (r0, w2)
                          /\ (forall e, r0 = Raise e -> retryable e = false)
                          /\ fetch_loop provider ticker m (S n) delay w tr =
                             (r0, w2, tr ++ backoff_trace ticker k delay
                                          ++ [ProviderCall ticker])))).
  { intros Hr. exists 0, w. split; [lia|]. split; [done|]. right. split; [lia|].
    exists r, w'. split; [done|]. split; [done|].
    cbn [fetch_loop backoff_trace app]. rewrite Ecall.
    destruct r as [data|e]; [done|]. by rewrite (Hr e eq_refl). }
  destruct r as [data|e]; [apply Hstop; by intros|].
  destruct (retryable e) eqn:He; [|apply Hstop; by intros e' [= <-]].
  clear Hstop.
  destruct (IH (delay * 2)%Z w' ((tr ++ [ProviderCall ticker]) ++ [Sleep delay]))
    as (k & w1 & Hk & Hrl & Hcase).
  exists (S k), w1. split; [lia|]. split.
  { cbn [rate_limited]. by rewrite Ecall, He. }
  cbn [fetch_loop]. rewrite Ecall, He.
  destruct Hcase as [[-> Hf]|(Hlt & r & w2 & Hcall & Hr & Hf)].
  - left. split; [done|]. rewrite Hf. cbn [backoff_trace].
    by rewrite <- !app_assoc.
  - right. split; [lia|]. exists r, w2. split; [done|]. split; [done|].
    rewrite Hf. cbn [backoff_trace]. by rewrite <- !app_assoc.
Qed.

(** X27. What [fetch_stock_data] returns, for any provider: it skips the
    answers that are rate-limit errors, sleeping after each, and returns the
    first other answer as it is -- a snapshot or a non-retryable error --
    leaving the provider in the state that answer left; if the first
    [max_retries] answers are all rate-limit errors it raises its own
    error. *)
Theorem fetch_returns_first_answer ticker max_retries w tr :
  exists k w1,
    k <= Z.to_nat max_retries
    /\ rate_limited provider ticker k w = Some w1
    /\ ((k = Z.to_nat max_retries
         /\ fetch_stock_data provider ticker max_retries w tr =
            (Raise (exhausted_message ticker max_retries), w1,
             tr ++ backoff_trace ticker k 1))
        \/ (k < Z.to_nat max_retries
            /\ exists r w2,
                provider ticker w1 = (r, w2)
                /\ (forall e, r = Raise e -> retryable e = false)
                /\ fetch_stock_data provider ticker max_retries w tr =
                   (r, w2, tr ++ backoff_trace ticker k 1
                               ++ [ProviderCall ticker]))).
Proof. apply fetch_loop_answer. Qed.

End FetcherAnswer.

(** X28. Only seven fields of the snapshot matter: setting any other key
    to any value leaves the result of [stock_qualifies] unchanged. *)
Theorem stock_qualifies_ignores_other_fields (info : gmap string pyval)
    (hist : list bar) (k : string) (v : pyval) :
  k ∉ text_fields ++ defaulted_fields ->
  stock_qualifies (<[k := v]> info) hist = stock_qualifies info hist.
Proof.
  intros Hk. unfold text_fields, defaulted_fields in Hk.
  repeat (apply not_elem_of_cons in Hk as [? Hk]).
  unfold stock_qualifies, info_get.
  by rewrite !lookup_insert_ne by done.
Qed.

Example sector_is_ignored :
  stock_qualifies (<["sector" := PStr "Financial Services"]> sound_info) sound_hist
  = stock_qualifies sound_info sound_hist.
Proof.
  apply stock_qualifies_ignores_other_fields.
  unfold text_fields, defaulted_fields. simpl.
  repeat (apply not_elem_of_cons; split; [discriminate|]).
  apply not_elem_of_nil.
Defined.
